(** * drain: aggregation and ranking metrics

    A shallow embedding of [aggregate.py] and [metrics.py] of the drain
    toolkit, and the properties of the specification that concern them.

    Conventions of the embedding.
    - A Python exception is a value of [exn]; a function that may raise
      returns a [result].
    - A floating point number is a value of [fval]: an exact rational, one
      of the two infinities, or NaN (the missing value of numpy and pandas).
      The cast of an array to single precision is modelled, with its
      rounding; the rounding of the arithmetic and the sign of zero are
      not: finite arithmetic is exact, and only the special cases of
      IEEE 754 are kept.
    - A [dict] is a [gmap]; an array or a Series is a list. *)

From Stdlib Require Import QArith Qreduction.
From Stdlib Require Import Ascii String.
From stdpp Require Import base list strings gmap sorting pretty.

Local Close Scope Q_scope.
Local Open Scope Z_scope.

(** ** Exceptions *)

Inductive exn : Type :=
  | ValueError (msg : string)
  | KeyError (key : string)
  | IndexError
  | AttributeError (name : string)
  | TypeError (msg : string).

Inductive result (A : Type) : Type :=
  | Ok (a : A)
  | Raise (e : exn).
Arguments Ok {A} a.
Arguments Raise {A} e.

Global Instance result_ret : MRet result := λ A a, Ok a.
Global Instance result_bind : MBind result := λ A B f r,
  match r with
  | Ok a => f a
  | Raise e => Raise e
  end.

Global Instance result_fmap : FMap result := λ A B f r,
  match r with
  | Ok a => Ok (f a)
  | Raise e => Raise e
  end.

Definition raises {A} (r : result A) : bool :=
  match r with Ok _ => false | Raise _ => true end.

(** ** Floating point values *)

Inductive fval : Type :=
  | Fin (q : Q)
  | PInf
  | NInf
  | NaN.

(** Finite results are kept in lowest terms, so that equal numbers are equal
    terms. *)
Definition fin (q : Q) : fval := Fin (Qred q).
Definition of_Z (z : Z) : fval := Fin (inject_Z z).

Definition isnan (x : fval) : bool :=
  match x with NaN => true | _ => false end.

Definition Qsgn (q : Q) : comparison := (Qnum q ?= 0)%Z.

Definition fneg (x : fval) : fval :=
  match x with
  | Fin q => fin (- q)
  | PInf => NInf
  | NInf => PInf
  | NaN => NaN
  end.

Definition fadd (x y : fval) : fval :=
  match x, y with
  | NaN, _ | _, NaN => NaN
  | Fin a, Fin b => fin (a + b)
  | PInf, NInf | NInf, PInf => NaN
  | PInf, _ | _, PInf => PInf
  | NInf, _ | _, NInf => NInf
  end.

Definition fsub (x y : fval) : fval := fadd x (fneg y).

Definition inf_of_sign (c : comparison) : fval :=
  match c with Gt => PInf | Lt => NInf | Eq => NaN end.

Definition fmul (x y : fval) : fval :=
  match x, y with
  | NaN, _ | _, NaN => NaN
  | Fin a, Fin b => fin (a * b)
  | Fin a, PInf | PInf, Fin a => inf_of_sign (Qsgn a)
  | Fin a, NInf | NInf, Fin a => inf_of_sign (CompOpp (Qsgn a))
  | PInf, PInf | NInf, NInf => PInf
  | PInf, NInf | NInf, PInf => NInf
  end.

(** Division as numpy and pandas compute it on floats: a finite nonzero
    number over zero is an infinity with the sign of the number, zero over
    zero is NaN, and nothing is raised. *)
Definition fdiv (x y : fval) : fval :=
  match x, y with
  | NaN, _ | _, NaN => NaN
  | Fin a, Fin b =>
      match Qsgn b with
      | Eq => inf_of_sign (Qsgn a)
      | _ => fin (a / b)
      end
  | Fin _, (PInf | NInf) => Fin 0
  | PInf, Fin b => match Qsgn b with Lt => NInf | _ => PInf end
  | NInf, Fin b => match Qsgn b with Lt => PInf | _ => NInf end
  | (PInf | NInf), (PInf | NInf) => NaN
  end.

(** Comparisons: every comparison with NaN is false. *)
Definition flt (x y : fval) : bool :=
  match x, y with
  | NaN, _ | _, NaN => false
  | Fin a, Fin b => match (a ?= b)%Q with Lt => true | _ => false end
  | NInf, (Fin _ | PInf) => true
  | Fin _, PInf => true
  | _, _ => false
  end.

Definition fle (x y : fval) : bool :=
  match x, y with
  | NaN, _ | _, NaN => false
  | _, _ => negb (flt y x)
  end.

Definition fge (x y : fval) : bool := fle y x.

(** The order numpy sorts by: the order of the numbers, NaN after all. *)
Definition sort_le (x y : fval) : bool :=
  match x, y with
  | _, NaN => true
  | NaN, _ => false
  | _, _ => fle x y
  end.

Definition fsum (l : list fval) : fval := foldl fadd (Fin 0) l.

(** ** Single precision *)

(** [q * 2^e] *)
Definition Qscale (q : Q) (e : Z) : Q :=
  if 0 <=? e then (Qnum q * 2 ^ e) # Qden q
  else Qnum q # (Qden q * Z.to_pos (2 ^ (- e))).

(** The exponent of a positive number: the [e] with [2^e <= q < 2^(e+1)]. *)
Definition Qexponent (q : Q) : Z :=
  let e := Z.log2 (Qnum q) - Z.log2 (Z.pos (Qden q)) in
  if Qle_bool (Qscale 1 e) q then e else e - 1.

(** The nearest integer, the even one of two that are as near. *)
Definition round_half_even (q : Q) : Z :=
  let f := Qnum q / Z.pos (Qden q) in
  match 2 * (Qnum q mod Z.pos (Qden q)) ?= Z.pos (Qden q) with
  | Lt => f
  | Gt => f + 1
  | Eq => if Z.even f then f else f + 1
  end.

(** A positive number in single precision: 24 bits are kept, from the
    exponent -126 on the spacing is that of the subnormal numbers, and what
    rounds to [2^128] or more is infinite. *)
Definition float32_of_positive (q : Q) : fval :=
  let e := Z.max (Qexponent q) (-126) in
  let m := round_half_even (Qscale q (23 - e)) in
  let r := Qscale (inject_Z m) (e - 23) in
  if Qle_bool (Qscale 1 128) r then PInf else fin r.

(** [np.float32(x)]: the nearest number of single precision. *)
Definition float32 (x : fval) : fval :=
  match x with
  | Fin q =>
      match Qsgn q with
      | Eq => Fin 0
      | Gt => float32_of_positive q
      | Lt => fneg (float32_of_positive (- q))
      end
  | _ => x
  end.

(** ** Arrays *)

(** [a[mask]]: the elements at which the mask is true. *)
Fixpoint take_mask {A} (mask : list bool) (a : list A) : list A :=
  match mask, a with
  | m :: mask, x :: a => if m then x :: take_mask mask a else take_mask mask a
  | _, _ => []
  end.

(** [a[idx]] for an array of positions; the positions used below come from
    [argsort] of an array of the same length. *)
Definition take_idx (a : list fval) (idx : list nat) : list fval :=
  map (λ i, default NaN (a !! i)) idx.

(** [mask.sum()] *)
Definition count_true (mask : list bool) : Z :=
  Z.of_nat (length (List.filter id mask)).

(** [a[start:]] with Python's treatment of a negative or too large start. *)
Definition slice_from {A} (start : Z) (a : list A) : list A :=
  let n := Z.of_nat (length a) in
  let s := if start <? 0 then Z.max 0 (n + start) else Z.min start n in
  drop (Z.to_nat s) a.

(** The order of two positions with their values: by value, and by position
    for values that the sort does not tell apart. *)
Definition score_le (a b : nat * fval) : Prop :=
  sort_le a.2 b.2 = true ∧ (sort_le b.2 a.2 = true → (a.1 ≤ b.1)%nat).

Global Instance score_le_dec a b : Decision (score_le a b).
Proof. unfold score_le. apply _. Defined.

(** [a.argsort()]: the positions of [a] in ascending order of value. numpy
    does not promise an order for equal values; its sort leaves them in the
    order of their positions on the arrays it sorts by insertion, and this
    is the order taken here. The properties of a ranking below hold for
    every order of equal values. *)
Definition argsort (a : list fval) : list nat :=
  (merge_sort score_le (zip (seq 0 (length a)) a)).*1.

(** ** Data frames *)

(** A frame is column oriented, as in pandas: the row labels and, for each
    column in order, its name and its values. *)
Record DataFrame : Type := mkDF {
  index : list (list fval);
  columns : list (string * list fval)
}.

(** [name in df.columns] *)
Definition has_column (df : DataFrame) (name : string) : bool :=
  bool_decide (name ∈ (columns df).*1).

Fixpoint assoc (name : string) (cols : list (string * list fval))
    : option (list fval) :=
  match cols with
  | [] => None
  | (c, v) :: cols => if String.eqb c name then Some v else assoc name cols
  end.

(** [df[name]] *)
Definition getitem (df : DataFrame) (name : string) : result (list fval) :=
  match assoc name (columns df) with
  | Some v => Ok v
  | None => Raise (KeyError name)
  end.

(** A Series assigned to a frame is aligned with the rows of the frame: the
    values beyond the last row are dropped, the rows without a value are
    missing. *)
Definition align (n : nat) (v : list fval) : list fval :=
  take n v ++ replicate (n - length v)%nat NaN.

Fixpoint assoc_set (name : string) (v : list fval)
    (cols : list (string * list fval)) : list (string * list fval) :=
  match cols with
  | [] => [(name, v)]
  | (c, w) :: cols =>
      if String.eqb c name then (c, v) :: cols
      else (c, w) :: assoc_set name v cols
  end.

(** [df[name] = v]: an existing column is replaced in place, a new one is
    added after the others. *)
Definition setitem (df : DataFrame) (name : string) (v : list fval) : DataFrame :=
  mkDF (index df) (assoc_set name (align (length (index df)) v) (columns df)).

(** [df[mask]]: the rows at which the mask is true. *)
Definition select_mask (df : DataFrame) (mask : list bool) : DataFrame :=
  mkDF (take_mask mask (index df))
       (map (λ c, (c.1, take_mask mask c.2)) (columns df)).

(** [df[names]]: the named columns in the order asked for. *)
Fixpoint select_columns (df : DataFrame) (names : list string)
    : result (list (string * list fval)) :=
  match names with
  | [] => Ok []
  | name :: names =>
      v ← getitem df name;
      rest ← select_columns df names;
      Ok ((name, v) :: rest)
  end.

(** The value of a numerator, denominator or weight: a Series or a scalar
    that is broadcast to the rows. *)
Inductive operand : Type :=
  | Ser (v : list fval)
  | Sca (x : fval).

Definition operand_mul (a b : operand) : operand :=
  match a, b with
  | Ser v, Ser w => Ser (zip_with fmul v w)
  | Ser v, Sca y => Ser (map (λ x, fmul x y) v)
  | Sca x, Ser w => Ser (map (fmul x) w)
  | Sca x, Sca y => Sca (fmul x y)
  end.

Definition broadcast (n : nat) (a : operand) : list fval :=
  match a with
  | Ser v => v
  | Sca x => replicate n x
  end.

(** The aggregation functions of a group; the missing values of a group are
    skipped. A group without values has the sum 0 and the count 0; its mean,
    minimum and maximum are missing. *)
Inductive aggfunc : Type :=
  | Sum
  | Mean
  | Count
  | Min
  | Max
  | Func (f : list fval → fval).

Definition fmin (x y : fval) : fval := if flt y x then y else x.
Definition fmax (x y : fval) : fval := if flt x y then y else x.

Definition apply_func (f : aggfunc) (v : list fval) : fval :=
  let present := List.filter (λ x, negb (isnan x)) v in
  match f, present with
  | Func g, _ => g v
  | Count, _ => of_Z (Z.of_nat (length present))
  | Sum, _ => fsum present
  | _, [] => NaN
  | Mean, _ => fdiv (fsum present) (of_Z (Z.of_nat (length present)))
  | Min, x :: rest => foldl fmin x rest
  | Max, x :: rest => foldl fmax x rest
  end.

(** Group keys: the values of the grouping columns of a row. Rows with a
    missing key belong to no group; the groups come in ascending order of
    their keys. *)
Definition feqb (x y : fval) : bool :=
  match x, y with
  | Fin a, Fin b => Qeq_bool a b
  | PInf, PInf | NInf, NInf => true
  | _, _ => false
  end.

Fixpoint key_eqb (a b : list fval) : bool :=
  match a, b with
  | [], [] => true
  | x :: a, y :: b => feqb x y && key_eqb a b
  | _, _ => false
  end.

Fixpoint key_leb (a b : list fval) : bool :=
  match a, b with
  | [], _ => true
  | _ :: _, [] => false
  | x :: a, y :: b => flt x y || (feqb x y && key_leb a b)
  end.

Definition key_le (a b : list fval) : Prop := key_leb a b = true.

Global Instance key_le_dec a b : Decision (key_le a b).
Proof. unfold key_le. apply _. Defined.

Fixpoint transpose (n : nat) (cols : list (list fval)) : list (list fval) :=
  match n with
  | O => []
  | S n => map (λ c, default NaN (head c)) cols :: transpose n (map (drop 1) cols)
  end.

Fixpoint distinct (keys : list (list fval)) : list (list fval) :=
  match keys with
  | [] => []
  | k :: keys => k :: List.filter (λ k', negb (key_eqb k k')) (distinct keys)
  end.

Definition group_keys (keys : list (list fval)) : list (list fval) :=
  merge_sort key_le
    (distinct (List.filter (λ k, negb (existsb isnan k)) keys)).

(** [df.groupby(names).agg(agg_dict)]. A frame that has rows is not grouped
    by an empty list of keys. *)
Definition groupby_agg (df : DataFrame) (names : list string)
    (agg_dict : gmap string aggfunc) : result DataFrame :=
  if bool_decide (names = []) && (0 <? length (index df))%nat then
    Raise (ValueError "No group keys passed!")
  else
    by_cols ← select_columns df names;
    let keys := transpose (length (index df)) by_cols.*2 in
    let groups := group_keys keys in
    cols ← mapM (λ '(name, f),
              v ← getitem df name;
              Ok (name, map (λ g, apply_func f (take_mask (map (key_eqb g) keys) v))
                            groups))
            (map_to_list agg_dict);
    Ok (mkDF groups cols).

(** * metrics.py *)

Module metrics_py.

(** [to_float(a)] of [util.py]: the array cast to single precision. *)
Definition to_float (a : list fval) : list fval := map float32 a.

Inductive precision : Type :=
  | Point (p : fval)
  | WithBounds (p : fval) (d : Z) (bounds : fval * fval).

Definition top_k (y_true y_score : list fval) (k : Z) (extrapolate : bool)
    : result (fval * Z) :=
  if negb (length y_true =? length y_score)%nat then
    Raise (ValueError ("Labels and scores must have same lengths: "
             +:+ pretty (length y_true) +:+ " != " +:+ pretty (length y_score)))
  else if k =? 0 then Ok (of_Z 0, 0)
  else
    let y_true := to_float y_true in
    let y_score := to_float y_score in
    let labeled := map (λ y, negb (isnan y)) y_true in
    let n := if extrapolate then Z.of_nat (length y_true) else count_true labeled in
    if negb extrapolate && (k >? n) then
      Raise (ValueError ("Cannot calculate precision at "
               +:+ pretty k +:+ " > " +:+ pretty n))
    else if extrapolate then
      let ranks := argsort y_score in
      let top := slice_from (- k) ranks in
      let labeled_top := map (λ y, negb (isnan y)) (take_idx y_true top) in
      Ok (fsum (take_mask labeled_top (take_idx y_true top)), count_true labeled_top)
    else
      let y_true := take_mask labeled y_true in
      let y_score := take_mask labeled y_score in
      let ranks := argsort y_score in
      let top := slice_from (- k) ranks in
      Ok (fsum (take_idx y_true top), k).

Definition precision_at_k (y_true y_score : list fval) (k : Z)
    (extrapolate return_bounds : bool) : result precision :=
  '(n, d) ← top_k y_true y_score k extrapolate;
  let p := if negb (d =? 0) then fdiv (fmul n (of_Z 1)) (of_Z d) else NaN in
  if extrapolate then
    let bounds :=
      if negb (k =? 0)
      then (fdiv n (of_Z k), fdiv (fsub (fadd n (of_Z k)) (of_Z d)) (of_Z k))
      else (NaN, NaN) in
    if return_bounds then Ok (WithBounds p d bounds) else Ok (Point p)
  else Ok (Point p).

(** [count_notnull(series)] *)
Definition count_notnull (series : list fval) : Z :=
  count_true (map (λ y, negb (isnan y)) (to_float series)).

(** [np.nansum(a)]: the sum of the values that are not NaN. *)
Definition nansum (a : list fval) : fval :=
  fsum (List.filter (λ y, negb (isnan y)) a).

(** The callers of [model.true_score], which is not in these files: they
    are given its result, the labels and the scores of a run. *)
Section runs.
Context {Run Args : Type} (true_score : Run → Args → list fval * list fval).

(** [baseline(run, **subset_args)] *)
Definition baseline (run : Run) (subset_args : Args) : fval :=
  let '(y_true, y_score) := true_score run subset_args in
  if (0 <? length y_true)%nat
  then fdiv (nansum y_true) (of_Z (count_notnull y_true))
  else of_Z 0.

(** [count(run, **subset_args)] *)
Definition count (run : Run) (subset_args : Args) : nat :=
  let '(y_true, y_score) := true_score run subset_args in
  length y_true.

End runs.

(** [~b] for a Python [bool]: the complement of the integer 1 or 0. *)
Definition invert (b : bool) : Z := if b then -2 else -1.

(** The truth value of an integer. *)
Definition truthy (z : Z) : bool := negb (z =? 0).

Section precision.
Context {Run Args : Type} (true_score : Run → Args → list fval * list fval).

(** [precision(run, dropna, **subset_args)] *)
Definition precision_of_run (run : Run) (dropna : bool) (subset_args : Args)
    : result precision :=
  let '(y_true, y_score) := true_score run subset_args in
  precision_at_k y_true y_score (Z.of_nat (length y_true))
    (truthy (invert dropna)) true.

End precision.

(** [a[idx]] for an array of positions that may be out of range. *)
Definition getitems (a : list fval) (idx : list nat) : result (list fval) :=
  mapM (λ i, match a !! i with
             | Some x => Ok x
             | None => Raise IndexError
             end) idx.

(** [a[0:stop]] with Python's treatment of a negative or too large stop. *)
Definition slice_to {A} (stop : Z) (a : list A) : list A :=
  let n := Z.of_nat (length a) in
  let e := if stop <? 0 then Z.max 0 (n + stop) else Z.min stop n in
  take (Z.to_nat e) a.

(** The largest finite float32, [(2 - 2^-23) * 2^127]. *)
Definition float32_max : Q := inject_Z ((2 ^ 24 - 1) * 2 ^ 104).

(** [np.nan_to_num(x)]: zero for NaN, the largest finite numbers for the
    infinities. *)
Definition nan_to_num (x : fval) : fval :=
  match x with
  | NaN => Fin 0
  | PInf => Fin float32_max
  | NInf => fin (- float32_max)
  | Fin q => Fin q
  end.

(** [a.cumsum()] *)
Fixpoint cumsum_from (acc : fval) (a : list fval) : list fval :=
  match a with
  | [] => []
  | x :: a => fadd acc x :: cumsum_from (fadd acc x) a
  end.

Definition cumsum (a : list fval) : list fval := cumsum_from (Fin 0) a.

(** [mask.cumsum()]: the number of true values so far. *)
Fixpoint cumcount_from (acc : Z) (mask : list bool) : list Z :=
  match mask with
  | [] => []
  | m :: mask =>
      let acc := if m then acc + 1 else acc in
      acc :: cumcount_from acc mask
  end.

Definition cumcount (mask : list bool) : list Z := cumcount_from 0 mask.

(** [np.arange(start, stop)] *)
Definition arange (start stop : Z) : list Z := seqZ start (stop - start).

(** [pd.Series(data, index=index)]: the lengths must agree. *)
Definition Series (data : list fval) (index : list Z) : result (list (Z * fval)) :=
  if (length data =? length index)%nat then Ok (zip index data)
  else Raise (ValueError ("Length of passed values is " +:+ pretty (length data)
                +:+ ", index implies " +:+ pretty (length index))).

(** [precision_series(y_true, y_score, k)]; [None] is no [k]. *)
Definition precision_series (y_true y_score : list fval) (k : option Z)
    : result (list (Z * fval)) :=
  let y_true := to_float y_true in
  let y_score := to_float y_score in
  let ranks := argsort y_score in
  let k := match k with Some k => k | None => Z.of_nat (length y_true) end in
  let top_k := slice_to k (reverse ranks) in
  labels ← getitems y_true top_k;
  let n := cumsum (map nan_to_num labels) in
  let d := cumcount (map (λ y, negb (isnan y)) labels) in
  Series (zip_with (λ n d, fdiv n (of_Z d)) n d) (arange 1 (k + 1)).

(** [1 - x] *)
Definition one_minus (x : fval) : fval := fsub (of_Z 1) x.

(** [recall_series(y_true, y_score, k, value)] *)
Definition recall_series (y_true y_score : list fval) (k : option Z)
    (value : bool) : result (list (Z * fval)) :=
  let y_true := to_float y_true in
  let y_score := to_float y_score in
  let ranks := argsort y_score in
  let k := match k with Some k => k | None => Z.of_nat (length y_true) end in
  let top_k := slice_to k (reverse ranks) in
  let y_true := if negb value then map one_minus y_true else y_true in
  labels ← getitems y_true top_k;
  Series (cumsum (map nan_to_num labels)) (arange 1 (k + 1)).

End metrics_py.


(** * aggregate.py *)

Module aggregate_py.

(** What a numerator or a denominator of a specification may be: a function
    of the frame, the name of a column, or a value (a scalar or a Series). *)
Inductive attr : Type :=
  | Callable (f : DataFrame → operand)
  | Name (s : string)
  | Value (v : operand).

(** One entry of the [columns] dictionary; an absent key is [None]. *)
Record agg : Type := mkAgg {
  numerator : option attr;
  denominator : option attr;
  func : option aggfunc;
  denominator_func : option aggfunc
}.

(** The grouping argument when it is not [None]: one name or a list. *)
Inductive index_arg : Type :=
  | OneName (s : string)
  | Names (l : list string).

Definition index_names (ix : index_arg) : list string :=
  match ix with
  | OneName s => [s]
  | Names l => l
  end.

(** What [attr in df.columns] raises for a Series: the labels of the columns
    are looked up by hash. *)
Definition unhashable_series : string :=
  "'Series' objects are mutable, thus they cannot be hashed".

(** [__series(df, attr)]. The test [attr in df.columns] comes before the
    test of the type of [attr]: a scalar is no column and is returned, a
    Series cannot be looked up. *)
Definition __series (df : DataFrame) (a : attr) : result operand :=
  match a with
  | Callable f => Ok (f df)
  | Name s =>
      if has_column df s then Ser <$> getitem df s
      else Raise (ValueError ("Invalid attribute for series: " +:+ s))
  | Value (Ser _) => Raise (TypeError unhashable_series)
  | Value (Sca x) => Ok (Sca x)
  end.

(** [x *= weight] on the value [x] of [__series(df, a)]. A column of the
    frame is a Series the frame holds: it is updated in place, and the frame
    sees the product from then on. *)
Definition weigh (df : DataFrame) (a : option attr) (x : operand)
    (weight : option operand) : DataFrame * operand :=
  match weight with
  | None => (df, x)
  | Some w =>
      let x' := operand_mul x w in
      match a with
      | Some (Name s) => (setitem df s (broadcast (length (index df)) x'), x')
      | _ => (df, x')
      end
  end.

(** The state of the first loop of [aggregate]: the frame of the caller, the
    frame of numerators and denominators, and the functions to aggregate
    them with. *)
Record gen_state : Type := mkGen {
  gen_df : DataFrame;
  gen_df2 : DataFrame;
  gen_agg_dict : gmap string aggfunc
}.

Definition assign (df2 : DataFrame) (name : string) (x : operand) : DataFrame :=
  setitem df2 name (broadcast (length (index df2)) x).

(** The body of the loop that generates numerators and denominators
    (lines 27 to 47). *)
Definition generate_one (weight : option operand) (st : gen_state)
    (entry : string * agg) : result gen_state :=
  let '(column, a) := entry in
  let df := gen_df st in
  num ← match numerator a with
        | Some n => __series df n
        | None => Ok (Ser (replicate (length (index df)) (of_Z 1)))
        end;
  let '(df, num) := weigh df (numerator a) num weight in
  let df2 := assign (gen_df2 st) (column +:+ "_numerator") num in
  let f := default Sum (func a) in
  let agg_dict := <[column +:+ "_numerator" := f]> (gen_agg_dict st) in
  match denominator a with
  | Some d =>
      den ← __series df d;
      let '(df, den) := weigh df (denominator a) den weight in
      let df2 := assign df2 (column +:+ "_denominator") den in
      let fd := default f (denominator_func a) in
      Ok (mkGen df df2 (<[column +:+ "_denominator" := fd]> agg_dict))
  | None => Ok (mkGen df df2 agg_dict)
  end.

Fixpoint foldM {A B} (f : A → B → result A) (a : A) (l : list B) : result A :=
  match l with
  | [] => Ok a
  | b :: l => a' ← f a b; foldM f a' l
  end.

(** The body of the loop that collects and renames (lines 54 to 58). *)
Definition collect_one (df3 df4 : DataFrame) (entry : string * agg)
    : result DataFrame :=
  let '(column, a) := entry in
  match denominator a with
  | Some _ =>
      num ← getitem df3 (column +:+ "_numerator");
      den ← getitem df3 (column +:+ "_denominator");
      Ok (setitem df4 column (zip_with fdiv num den))
  | None =>
      num ← getitem df3 (column +:+ "_numerator");
      Ok (setitem df4 column num)
  end.

(** Lines 52 to 59. *)
Definition collect (df3 : DataFrame) (columns : gmap string agg)
    : result DataFrame :=
  foldM (collect_one df3) (mkDF (index df3) []) (map_to_list columns).

(** Lines 16 to 50: the frame of aggregated numerators and denominators. *)
Definition components (df : DataFrame) (columns : gmap string agg)
    (weight : option operand) (index_ : option index_arg) : result DataFrame :=
  df2 ← match index_ with
        | Some ix => mkDF (index df) <$> select_columns df (index_names ix)
        | None => Ok (mkDF (index df) [])
        end;
  st ← foldM (generate_one weight) (mkGen df df2 ∅) (map_to_list columns);
  match index_ with
  | Some ix => groupby_agg (gen_df2 st) (index_names ix) (gen_agg_dict st)
  | None => Ok (gen_df2 st)
  end.

Definition aggregate (df : DataFrame) (columns : gmap string agg)
    (weight : option operand) (index_ : option index_arg) : result DataFrame :=
  df3 ← components df columns weight index_;
  collect df3 columns.

(** [censor]. The time line is a line of numbers, a missing date is NaN;
    [minus end_date delta] is the date arithmetic of dateutil. *)
Section censor.
Context {delta_t : Type} (minus : fval → delta_t → fval).

Definition censor (df : DataFrame) (date_column : string) (end_date : fval)
    (delta : option delta_t) : result DataFrame :=
  dates ← getitem df date_column;
  let df := select_mask df (map (λ d, flt d end_date) dates) in
  match delta with
  | Some delta =>
      let start_date := minus end_date delta in
      dates ← getitem df date_column;
      Ok (select_mask df (map (λ d, fge d start_date) dates))
  | None => Ok df
  end.
End censor.

(** ** Time windows *)

Definition delta_chars : gmap string string :=
  list_to_map
    [("y", "years"); ("m", "months"); ("w", "weeks"); ("d", "days");
     ("h", "hours"); ("M", "minutes"); ("s", "seconds"); ("u", "microseconds")].

(** The longest prefix of characters that satisfy [p], and the rest. *)
Fixpoint span (p : ascii → bool) (s : string) : string * string :=
  match s with
  | String c s' =>
      if p c then let '(a, b) := span p s' in (String c a, b) else ("", s)
  | EmptyString => ("", "")
  end.

Definition is_digit (c : ascii) : bool :=
  (48 <=? nat_of_ascii c)%nat && (nat_of_ascii c <=? 57)%nat.

Definition newline : ascii := ascii_of_nat 10.

(** [$] matches at the end of the string and before a newline that ends the
    string. *)
Definition at_dollar (s : string) : bool :=
  match s with
  | EmptyString => true
  | String c EmptyString => bool_decide (c = newline)
  | _ => false
  end.

(** The alternatives of the second group of [delta_regex]. *)
Definition delta_regex_units : list ascii :=
  ["u"; "s"; "M"; "h"; "d"; "m"; "y"]%char.

(** [delta_regex.findall(s)] for [^([0-9]+)(u|s|M|h|d|m|y)$]: the digits
    are matched greedily and no shorter run can be followed by a unit, so
    there is at most one match, at the start of the string. *)
Definition delta_regex_findall (s : string) : list (string * string) :=
  let '(digits, rest) := span is_digit s in
  match digits, rest with
  | String _ _, String u rest' =>
      if bool_decide (u ∈ delta_regex_units) && at_dollar rest'
      then [(digits, String u "")]
      else []
  | _, _ => []
  end.

(** [int(s)] for a string of decimal digits. *)
Definition int_of_digits (s : string) : Z :=
  foldl (λ acc c, 10 * acc + (Z.of_nat (nat_of_ascii c) - 48)) 0
        (list_ascii_of_string s).

(** A [relativedelta] made with one keyword argument, the field, and its
    value. *)
Record relativedelta : Type := mkDelta {
  delta_field : string;
  delta_value : Z
}.

(** [None] is the window without a start, written [all]. *)
Definition parse_delta (s : string) : result (option relativedelta) :=
  if String.eqb s "all" then Ok None
  else
    match delta_regex_findall s with
    | [(digits, unit)] =>
        match delta_chars !! unit with
        | Some field => Ok (Some (mkDelta field (int_of_digits digits)))
        | None => Raise (KeyError unit)
        end
    | _ => Raise (ValueError ("Invalid delta string: " +:+ s))
    end.

(** ** Column names *)

Definition not_underscore (c : ascii) : bool := negb (Ascii.eqb c "_").

(** One repetition of [[^_]+_] at the start of [s]: what it matches and
    what is left. *)
Definition prefix_field (s : string) : option (string * string) :=
  let '(f, rest) := span not_underscore s in
  match f, rest with
  | String _ _, String c rest' =>
      if Ascii.eqb c "_" then Some (f +:+ "_", rest') else None
  | _, _ => None
  end.

(** [spacetime_prefix_regex.findall(column)] for [^(([^_]+_){3})]: the two
    groups of the only possible match. *)
Definition spacetime_prefix_regex_findall (column : string)
    : list (string * string) :=
  match prefix_field column with
  | Some (f1, r1) =>
      match prefix_field r1 with
      | Some (f2, r2) =>
          match prefix_field r2 with
          | Some (f3, _) => [(f1 +:+ f2 +:+ f3, f3)]
          | None => []
          end
      | None => []
      end
  | None => []
  end.

Definition get_spacetime_prefix (column : string) : result string :=
  match spacetime_prefix_regex_findall column with
  | m :: _ => Ok m.1
  | [] => Raise IndexError
  end.

(** ['{0}_{1}_{2}_{3}'.format(prefix, space, delta, column)] (line 138) *)
Definition panel_column (prefix space delta column : string) : string :=
  prefix +:+ "_" +:+ space +:+ "_" +:+ delta +:+ "_" +:+ column.

(** ** SpacetimeAggregator *)

Record Spacedeltas : Type := mkSpacedeltas {
  spatial_index : index_arg;
  deltas : gmap string (option relativedelta)
}.

(** [Spacedeltas.__init__] *)
Definition Spacedeltas_init (spatial_index : index_arg)
    (delta_strings : list string) : result Spacedeltas :=
  ds ← mapM (λ s, d ← parse_delta s; Ok (s, d)) delta_strings;
  Ok (mkSpacedeltas spatial_index (list_to_map ds)).

(** A date: year, month and day. *)
Abbreviation date := (Z * Z * Z)%type.

Definition zero_pad (width : nat) (s : string) : string :=
  string_of_list_ascii (replicate (width - String.length s) "0"%char) +:+ s.

(** [d.strftime('%Y%m%d')] *)
Definition strftime_Ymd (d : date) : string :=
  zero_pad 4 (pretty d.1.1) +:+ zero_pad 2 (pretty d.1.2) +:+ zero_pad 2 (pretty d.2).

Definition starts_with_slash (s : string) : bool :=
  match s with String c _ => Ascii.eqb c "/" | EmptyString => false end.

Fixpoint ends_with_slash (s : string) : bool :=
  match s with
  | EmptyString => false
  | String c EmptyString => Ascii.eqb c "/"
  | String _ s => ends_with_slash s
  end.

(** [os.path.join(a, b)] *)
Definition path_join (a b : string) : string :=
  if starts_with_slash b then b
  else if String.eqb a "" || ends_with_slash a then a +:+ b
  else a +:+ "/" +:+ b.

Inductive dtype : Type :=
  | Int64
  | Float64.

(** The values the attributes of an aggregator hold. *)
Inductive value : Type :=
  | VStr (s : string)
  | VDates (l : list date)
  | VSpacedeltas (m : gmap string Spacedeltas)
  | VFilenames (m : gmap date string)
  | VDtypes (m : gmap string dtype).

(** An object is the dictionary of its attributes. *)
Abbreviation object := (gmap string value).

Definition getattr (self : object) (name : string) : result value :=
  match self !! name with
  | Some v => Ok v
  | None => Raise (AttributeError name)
  end.

(** [SpacetimeAggregator.__init__] *)
Definition SpacetimeAggregator_init (spacedeltas : gmap string Spacedeltas)
    (dates : list date) (prefix basedir : string) : object :=
  let self : object := <["spacedeltas" := VSpacedeltas spacedeltas]> ∅ in
  let self := <["prefix" := VStr prefix]> self in
  let self := <["dates" := VDates dates]> self in
  let dirname := path_join basedir prefix in
  let self := <["dirname" := VStr dirname]> self in
  <["filenames" :=
      VFilenames (list_to_map
        (map (λ d, (d, path_join dirname (strftime_Ymd d +:+ ".hdf"))) dates))]>
    self.

(** A frame after [unstack]: a column has a key of three levels, the name
    of the metric, the space and the delta. *)
Abbreviation column_key := (string * string * string)%type.

Record Panel (K : Type) : Type := mkPanel {
  panel_index : list (list fval);
  panel_columns : list (K * list fval)
}.
Arguments mkPanel {K} _ _.
Arguments panel_index {K} _.
Arguments panel_columns {K} _.

Definition panel_get (df : Panel column_key) (c : column_key)
    : result (list fval) :=
  match list_find (λ kv, kv.1 = c) (panel_columns df) with
  | Some (_, kv) => Ok kv.2
  | None => Raise (KeyError (c.1.1 +:+ "," +:+ c.1.2 +:+ "," +:+ c.2))
  end.

Definition panel_set (df : Panel column_key) (c : column_key) (v : list fval)
    : Panel column_key :=
  match list_find (λ kv, kv.1 = c) (panel_columns df) with
  | Some (i, _) => mkPanel (panel_index df) (<[i := (c, v)]> (panel_columns df))
  | None => mkPanel (panel_index df) (panel_columns df ++ [(c, v)])
  end.

(** [v.astype(t)]: a missing or infinite value has no integer. *)
Definition astype (t : dtype) (v : list fval) : result (list fval) :=
  match t with
  | Float64 => Ok v
  | Int64 =>
      mapM (λ x, match x with
                 | Fin q => Ok (of_Z (Z.quot (Qnum q) (Z.pos (Qden q))))
                 | _ => Raise (ValueError "Cannot convert NA to integer")
                 end) v
  end.

(** [self.dtypes] *)
Definition get_dtypes (self : object) : result (gmap string dtype) :=
  v ← getattr self "dtypes";
  match v with
  | VDtypes m => Ok m
  | _ => Raise (ValueError "dtypes")
  end.

(** [filter(lambda c: c[0] in self.dtypes, columns)]: the list is built at
    once, and the attribute is read for each column. *)
Fixpoint filter_declared (self : object) (columns : list column_key)
    : result (list column_key) :=
  match columns with
  | [] => Ok []
  | c :: columns =>
      dtypes ← get_dtypes self;
      rest ← filter_declared self columns;
      Ok (if bool_decide (is_Some (dtypes !! c.1.1)) then c :: rest else rest)
  end.

(** The body of the loop of line 135. *)
Definition restore_one (self : object) (df : Panel column_key) (c : column_key)
    : result (Panel column_key) :=
  dtypes ← get_dtypes self;
  match dtypes !! c.1.1 with
  | Some t =>
      v ← panel_get df c;
      v' ← astype t v;
      Ok (panel_set df c v')
  | None => Raise (KeyError c.1.1)
  end.

(** [get_prefix self] is [self.prefix]. *)
Definition get_prefix (self : object) : result string :=
  v ← getattr self "prefix";
  match v with
  | VStr s => Ok s
  | _ => Raise (ValueError "prefix")
  end.

(** [read] with [pivot=True], from line 131 on: [df] is the frame that
    [unstack] returned and [columns] the product of the levels of its
    columns. The dtypes are set back and the columns are named. *)
Definition read_pivoted (self : object) (df : Panel column_key)
    (columns : list column_key) : result (Panel string) :=
  declared ← filter_declared self columns;
  df ← foldM (restore_one self) df declared;
  prefix ← get_prefix self;
  let names := map (λ c : column_key, panel_column prefix c.1.2 c.2 c.1.1) columns in
  if bool_decide (length names = length (panel_columns df)) then
    Ok (mkPanel (panel_index df) (zip names (panel_columns df).*2))
  else Raise (ValueError "Length mismatch").

End aggregate_py.

Import aggregate_py.

(** * Notions of the specification *)

(** The positions a slice of the last [m] ranks holds: [m] different
    positions, each with a value that no position left out exceeds in the
    order of the sort. *)
Definition is_top (a : list fval) (m : nat) (top : list nat) : Prop :=
  NoDup top ∧ length top = m ∧
  (∀ i, i ∈ top → (i < length a)%nat) ∧
  (∀ i j, i ∈ top → (j < length a)%nat → j ∉ top →
     sort_le (default NaN (a !! j)) (default NaN (a !! i)) = true).

(** The labeled examples: the pairs of a label and a score whose label is
    not missing. *)
Definition labeled_examples (y_true y_score : list fval) : list (fval * fval) :=
  List.filter (λ e, negb (isnan e.1)) (zip y_true y_score).

Definition positives (labels : list fval) : Z :=
  Z.of_nat (length (List.filter (feqb (of_Z 1)) labels)).

Definition binary (labels : list fval) : Prop :=
  ∀ y, y ∈ labels → y = of_Z 0 ∨ y = of_Z 1 ∨ y = NaN.

Definition lengths_message (n m : nat) : string :=
  "Labels and scores must have same lengths: " +:+ pretty n +:+ " != " +:+ pretty m.

Definition range_message (k n : Z) : string :=
  "Cannot calculate precision at " +:+ pretty k +:+ " > " +:+ pretty n.

Definition nonmissing (labels : list fval) : list fval :=
  List.filter (λ y, negb (isnan y)) labels.

(** The input of the example of the specification. *)
Definition example_true : list fval := [of_Z 1; of_Z 0; of_Z 1; NaN].
Definition example_score : list fval :=
  [Fin (9 # 10); Fin (1 # 10); Fin (5 # 10); Fin (4 # 10)].

(** Two scores that differ and are the same number in single precision,
    and the labels of the two examples. *)
Definition close_true : list fval := [of_Z 1; of_Z 0].
Definition close_score : list fval :=
  [Fin (50000001 # 100000000); Fin (1 # 2)].

(** The bounds as the specification reads them, on the labels of the top:
    the number d of labeled items, the number u of unlabeled ones, and the
    bounds n / k and (n + u) / k. *)
Definition bounds_as_claimed (labels_top : list fval) (k : Z)
    : Z * Z * (fval * fval) :=
  let n := fsum (nonmissing labels_top) in
  let d := Z.of_nat (length (nonmissing labels_top)) in
  let u := Z.of_nat (length (List.filter isnan labels_top)) in
  (d, u, (fdiv n (of_Z k), fdiv (fadd n (of_Z u)) (of_Z k))).

(** The rows [censor] keeps: the rows whose date the window holds. *)
Definition in_window {D} (minus : fval → D → fval) (end_date : fval)
    (delta : option D) (d : fval) : bool :=
  match delta with
  | Some delta => fge d (minus end_date delta) && flt d end_date
  | None => flt d end_date
  end.

Definition events : DataFrame :=
  mkDF [[of_Z 0]; [of_Z 1]; [of_Z 2]]
       [("date", [of_Z 1; of_Z 5; of_Z 9]); ("x", [of_Z 10; of_Z 20; of_Z 30])].



Definition is_inf (x : fval) : bool :=
  match x with PInf | NInf => true | _ => false end.


(** The table of the example of the specification, and the same table with
    weights that are all zero, in one group. *)
Definition ratio_spec : gmap string agg :=
  {[ "m" := mkAgg (Some (Name "x")) (Some (Name "w")) (Some Sum) None ]}.

Definition two_rows : DataFrame :=
  mkDF [[of_Z 0]; [of_Z 1]]
       [("x", [of_Z 1; of_Z 3]); ("w", [of_Z 2; of_Z 0])].

Definition zero_weights : DataFrame :=
  mkDF [[of_Z 0]; [of_Z 1]]
       [("x", [of_Z 1; of_Z 3]); ("w", [of_Z 0; of_Z 0]); ("g", [of_Z 7; of_Z 7])].

(** A string of decimal digits. *)
Fixpoint all_digits (s : string) : bool :=
  match s with
  | EmptyString => true
  | String c s => is_digit c && all_digits s
  end.

Fixpoint no_underscore (s : string) : bool :=
  match s with
  | EmptyString => true
  | String c s => not_underscore c && no_underscore s
  end.



(** The examples [precision_series] and [recall_series] rank first: the
    positions of the [k] highest scores, the highest first. *)
Definition head_ranks (y_score : list fval) (k : Z) : list nat :=
  take (Z.to_nat k) (reverse (argsort y_score)).

(** A ranking of the positions of [a]: every position once, and no
    position before one of higher value, in the order of the sort. Equal
    values may come in any order. *)
Definition is_ranking (a : list fval) (ranks : list nat) : Prop :=
  ranks ≡ₚ seq 0 (length a)
  ∧ ∀ i j x y, (i < j)%nat → ranks !! i = Some x → ranks !! j = Some y →
      sort_le (default NaN (a !! y)) (default NaN (a !! x)) = true.

(** A metric that names a column the frame does not have. *)
Definition unresolved (df : DataFrame) (a : agg) : Prop :=
  ∃ s, (numerator a = Some (Name s) ∨ denominator a = Some (Name s))
     ∧ has_column df s = false.

Definition invalid_attribute (df : DataFrame) (e : exn) : Prop :=
  ∃ s, e = ValueError ("Invalid attribute for series: " +:+ s)
     ∧ has_column df s = false.

(** A metric whose numerator or denominator is given as a Series. *)
Definition holds_series (a : agg) : Prop :=
  ∃ v, numerator a = Some (Value (Ser v))
     ∨ denominator a = Some (Value (Ser v)).

(** The number of rows whose key is the key of the group. *)
Definition group_size (g : list fval) (keys : list (list fval)) : Z :=
  Z.of_nat (length (List.filter (key_eqb g) keys)).

(** A date that [strftime] formats in eight digits: a year from 1900, the
    first that Python 2 formats, to 9999. *)
Definition valid_date (d : date) : Prop :=
  1900 ≤ d.1.1 ≤ 9999 ∧ 1 ≤ d.1.2 ≤ 12 ∧ 1 ≤ d.2 ≤ 31.

(** The number read back from a field of [width] digits. *)
Definition padded_ok (width : nat) (z : Z) : bool :=
  (String.length (zero_pad width (pretty z)) =? width)%nat
  && (int_of_digits (zero_pad width (pretty z)) =? z).

(** The values of a column in the rows of a group. *)
Definition group_values (g : list fval) (keys : list (list fval))
    (v : list fval) : list fval :=
  take_mask (map (key_eqb g) keys) v.

(** * Properties *)

(** ** The order of the sort *)

Lemma fle_fin a b : fle (Fin a) (Fin b) = true ↔ (a <= b)%Q.
Proof.
  unfold fle, flt. rewrite Qle_alt, <- (Qcompare_antisym b a).
  destruct (b ?= a)%Q; simpl; split; intros; congruence.
Qed.

Lemma sort_le_fin a b : sort_le (Fin a) (Fin b) = true ↔ (a <= b)%Q.
Proof. apply fle_fin. Qed.

Lemma sort_le_total x y : sort_le x y = true ∨ sort_le y x = true.
Proof.
  destruct x as [a| | |], y as [b| | |]; try (by simpl; auto).
  rewrite !sort_le_fin. destruct (Qlt_le_dec a b) as [H|H]; auto using Qlt_le_weak.
Qed.

Lemma sort_le_trans x y z :
  sort_le x y = true → sort_le y z = true → sort_le x z = true.
Proof.
  destruct x as [a| | |], y as [b| | |], z as [c| | |]; try done.
  rewrite !sort_le_fin. apply Qle_trans.
Qed.

Global Instance score_le_total : Total score_le.
Proof.
  intros [i x] [j y]. unfold score_le. simpl.
  destruct (sort_le x y) eqn:Hxy, (sort_le y x) eqn:Hyx.
  - destruct (Nat.le_ge_cases i j); [left|right]; done.
  - left. done.
  - right. done.
  - destruct (sort_le_total x y); congruence.
Qed.

Global Instance score_le_trans : Transitive score_le.
Proof.
  intros [i x] [j y] [k z]. unfold score_le. simpl.
  intros [Hxy Hij] [Hyz Hjk]. split; [by eapply sort_le_trans|].
  intros Hzx.
  pose proof (sort_le_trans _ _ _ Hzx Hxy) as Hzy.
  pose proof (sort_le_trans _ _ _ Hyz Hzx) as Hyx.
  specialize (Hij Hyx). specialize (Hjk Hzy). lia.
Qed.

Lemma score_le_sort_le a b : score_le a b → sort_le a.2 b.2 = true.
Proof. by intros [? _]. Qed.

(** ** [argsort] ranks the positions *)

Lemma argsort_perm a : argsort a ≡ₚ seq 0 (length a).
Proof.
  unfold argsort. rewrite merge_sort_Permutation.
  rewrite fst_zip; [done | by rewrite length_seq].
Qed.

Lemma length_argsort a : length (argsort a) = length a.
Proof. by rewrite argsort_perm, length_seq. Qed.

Lemma elem_of_zip_seq (a : list fval) i s :
  (i, s) ∈ zip (seq 0 (length a)) a ↔ a !! i = Some s.
Proof.
  rewrite list_elem_of_lookup. split.
  - intros [j Hj]. apply lookup_zip_Some in Hj as [Hi Hs].
    apply lookup_seq in Hi as [-> _]. done.
  - intros Hs. exists i. apply lookup_zip_Some. split; [|done].
    apply lookup_seq. split; [done|]. by eapply lookup_lt_Some.
Qed.

Lemma drop_argsort_is_top a n :
  is_top a (length a - n) (drop n (argsort a)).
Proof.
  set (sorted := merge_sort score_le (zip (seq 0 (length a)) a)).
  assert (Hperm : sorted ≡ₚ zip (seq 0 (length a)) a)
    by apply merge_sort_Permutation.
  assert (Hsorted : StronglySorted score_le sorted)
    by apply (StronglySorted_merge_sort _).
  assert (Hnodup : NoDup (argsort a)).
  { rewrite argsort_perm. apply NoDup_seq. }
  assert (Hdrop : drop n (argsort a) = (drop n sorted).*1).
  { unfold argsort. by rewrite fmap_drop. }
  repeat split.
  - rewrite <- (take_drop n (argsort a)) in Hnodup.
    by apply NoDup_app in Hnodup as (_ & _ & ?).
  - by rewrite length_drop, length_argsort.
  - intros i Hi. apply (subseteq_drop n) in Hi. rewrite argsort_perm in Hi.
    apply elem_of_seq in Hi. lia.
  - intros i j Hi Hj Hnj. rewrite Hdrop in Hi, Hnj.
    apply list_elem_of_fmap in Hi as ([i' si] & -> & Hi). simpl in *.
    destruct (lookup_lt_is_Some_2 a j Hj) as [sj Hsj].
    assert (Hjs : (j, sj) ∈ sorted).
    { rewrite Hperm. by apply elem_of_zip_seq. }
    assert (His : a !! i' = Some si).
    { apply elem_of_zip_seq. rewrite <- Hperm. by eapply subseteq_drop. }
    rewrite Hsj, His. simpl.
    rewrite <- (take_drop n sorted) in Hjs, Hsorted.
    apply elem_of_app in Hjs as [Hjs|Hjs].
    + apply (score_le_sort_le (j, sj) (i', si)).
      by apply (StronglySorted_app_1_elem_of _ _ _ _ _ Hsorted Hjs Hi).
    + exfalso. apply Hnj. apply list_elem_of_fmap. by exists (j, sj).
Qed.

Lemma slice_from_last {A} (k : Z) (l : list A) :
  0 < k → slice_from (- k) l = drop (length l - Z.to_nat k) l.
Proof.
  intros Hk. unfold slice_from.
  destruct (Z.ltb_spec (- k) 0); [|lia]. f_equal. lia.
Qed.

(** ** Masks *)

Lemma take_mask_map {A} (p : A → bool) (l : list A) :
  take_mask (map p l) l = List.filter p l.
Proof. induction l as [|x l IH]; simpl; [done|]. by rewrite IH. Qed.

Lemma count_true_map {A} (p : A → bool) (l : list A) :
  count_true (map p l) = Z.of_nat (length (List.filter p l)).
Proof.
  unfold count_true. f_equal.
  induction l as [|x l IH]; simpl; [done|]. destruct (p x); simpl; lia.
Qed.

(** ** Labeled examples *)

Lemma labeled_examples_fst y_true y_score :
  (length y_true ≤ length y_score)%nat →
  (labeled_examples y_true y_score).*1
  = take_mask (map (λ y, negb (isnan y)) y_true) y_true.
Proof.
  unfold labeled_examples. revert y_score.
  induction y_true as [|y l IH]; intros [|s ss] Hlen; simpl in *; try done; try lia.
  destruct (isnan y); simpl; rewrite IH by lia; done.
Qed.

Lemma labeled_examples_snd y_true y_score :
  (labeled_examples y_true y_score).*2
  = take_mask (map (λ y, negb (isnan y)) y_true) y_score.
Proof.
  unfold labeled_examples. revert y_score.
  induction y_true as [|y l IH]; intros [|s ss]; simpl in *; try done.
  destruct (isnan y); simpl; rewrite IH; done.
Qed.

(** ** Sums of labels *)

Lemma Qred_inject_Z z : Qred (inject_Z z) = inject_Z z.
Proof.
  unfold Qred, inject_Z.
  pose proof (Z.ggcd_gcd z 1) as Hg.
  pose proof (Z.ggcd_correct_divisors z 1) as Hd.
  destruct (Z.ggcd z 1) as [g [aa bb]]; simpl in *.
  rewrite Z.gcd_1_r in Hg. subst g. destruct Hd as [Ha Hb].
  rewrite Z.mul_1_l in Ha, Hb. by subst.
Qed.

Lemma fadd_of_Z a b : fadd (of_Z a) (of_Z b) = of_Z (a + b).
Proof.
  unfold fadd, of_Z, fin.
  by rewrite <- (Qred_inject_Z (a + b)), inject_Z_plus.
Qed.

Lemma fmul_of_Z_1 a : fmul (of_Z a) (of_Z 1) = of_Z a.
Proof.
  unfold fmul, of_Z, fin. rewrite <- (Qred_inject_Z a) at 2.
  f_equal. apply Qred_complete. apply Qmult_1_r.
Qed.

Lemma foldl_fadd_binary labels z :
  (∀ y, y ∈ labels → y = of_Z 0 ∨ y = of_Z 1) →
  foldl fadd (of_Z z) labels = of_Z (z + positives labels).
Proof.
  unfold positives. revert z.
  induction labels as [|y l IH]; intros z Hbin; cbn [foldl].
  - simpl. by rewrite Z.add_0_r.
  - assert (Hl : ∀ y, y ∈ l → y = of_Z 0 ∨ y = of_Z 1).
    { intros y' Hy'. apply Hbin. by right. }
    destruct (Hbin y) as [-> | ->]; [by left| |];
      rewrite fadd_of_Z, IH by done; simpl; f_equal; lia.
Qed.

Lemma fsum_binary labels :
  (∀ y, y ∈ labels → y = of_Z 0 ∨ y = of_Z 1) →
  fsum labels = of_Z (positives labels).
Proof. intros H. apply (foldl_fadd_binary labels 0 H). Qed.

Lemma fdiv_of_Z_pos a k :
  0 < k → fdiv (of_Z a) (of_Z k) = fin (inject_Z a / inject_Z k).
Proof.
  intros Hk. unfold fdiv, of_Z, Qsgn. simpl.
  destruct (Z.compare_spec k 0); try lia; done.
Qed.

Lemma take_idx_elem_of a idx y :
  (∀ i, i ∈ idx → (i < length a)%nat) → y ∈ take_idx a idx → y ∈ a.
Proof.
  intros Hidx Hy. apply list_elem_of_fmap in Hy as (i & -> & Hi).
  destruct (lookup_lt_is_Some_2 a i (Hidx i Hi)) as [x Hx].
  rewrite Hx. simpl. by eapply list_elem_of_lookup_2.
Qed.

(** ** The cast to single precision *)

Lemma isnan_fneg x : isnan (fneg x) = isnan x.
Proof. by destruct x. Qed.

Lemma isnan_float32_of_positive q : isnan (float32_of_positive q) = false.
Proof. unfold float32_of_positive. by destruct (Qle_bool _ _). Qed.

Lemma isnan_float32 x : isnan (float32 x) = isnan x.
Proof.
  destruct x as [q| | |]; try done. simpl.
  destruct (Qsgn q); [done|..];
    by rewrite ?isnan_fneg, isnan_float32_of_positive.
Qed.

Lemma length_to_float a : length (metrics_py.to_float a) = length a.
Proof. apply length_map. Qed.

Lemma labeled_to_float a :
  map (λ y, negb (isnan y)) (metrics_py.to_float a)
  = map (λ y, negb (isnan y)) a.
Proof.
  unfold metrics_py.to_float. rewrite map_map. apply map_ext.
  intros y. by rewrite isnan_float32.
Qed.


Lemma binary_to_float labels : binary labels → metrics_py.to_float labels = labels.
Proof.
  intros Hbin. unfold metrics_py.to_float.
  rewrite <- (map_id labels) at 2. apply map_ext_in.
  intros y Hy. apply list_elem_of_In in Hy.
  destruct (Hbin y Hy) as [->|[->| ->]]; reflexivity.
Qed.

Lemma length_labeled_examples_to_float y_true y_score :
  length (labeled_examples (metrics_py.to_float y_true)
            (metrics_py.to_float y_score))
  = length (labeled_examples y_true y_score).
Proof.
  unfold labeled_examples. revert y_score.
  induction y_true as [|y l IH]; intros [|s ss]; simpl; try done.
  rewrite isnan_float32. destruct (isnan y); simpl; by rewrite IH.
Qed.

Lemma nonmissing_to_float labels :
  nonmissing (metrics_py.to_float labels)
  = metrics_py.to_float (nonmissing labels).
Proof.
  unfold nonmissing, metrics_py.to_float.
  induction labels as [|y l IH]; simpl; [done|].
  rewrite isnan_float32. destruct (isnan y); simpl; by rewrite IH.
Qed.

(** ** Ranking metrics *)

(** C10. Labels and scores of different lengths: [top_k], and so
    [precision_at_k], raises the ValueError that reports the two lengths,
    whatever [k] and [extrapolate] are; neither ranks nor divides. *)
Theorem top_k_lengths_differ (y_true y_score : list fval) (k : Z)
    (extrapolate return_bounds : bool) :
  length y_true ≠ length y_score →
  metrics_py.top_k y_true y_score k extrapolate
    = Raise (ValueError (lengths_message (length y_true) (length y_score)))
  ∧ metrics_py.precision_at_k y_true y_score k extrapolate return_bounds
    = Raise (ValueError (lengths_message (length y_true) (length y_score))).
Proof.
  intros Hlen.
  assert (Htop : metrics_py.top_k y_true y_score k extrapolate
    = Raise (ValueError (lengths_message (length y_true) (length y_score)))).
  { unfold metrics_py.top_k.
    destruct (Nat.eqb_spec (length y_true) (length y_score)); [done|].
    reflexivity. }
  split; [done|]. unfold metrics_py.precision_at_k. by rewrite Htop.
Qed.

Lemma top_k_lengths_differ_witness :
  metrics_py.precision_at_k example_true [Fin (9 # 10)] 2 true true
  = Raise (ValueError "Labels and scores must have same lengths: 4 != 1").
Proof.
  apply (top_k_lengths_differ example_true [Fin (9 # 10)] 2 true true).
  simpl. lia.
Defined.

(** C7. On the labels 1, 0, 1, missing with the scores 0.9, 0.1, 0.5, 0.4
    and k = 2, the precision is 1 without extrapolation, and with
    extrapolation it is 1 again with both bounds equal to 1. *)
Theorem precision_at_2_example :
  metrics_py.precision_at_k example_true example_score 2 false true
    = Ok (metrics_py.Point (of_Z 1))
  ∧ metrics_py.precision_at_k example_true example_score 2 true true
    = Ok (metrics_py.WithBounds (of_Z 1) 2 (of_Z 1, of_Z 1)).
Proof. split; vm_compute; reflexivity. Qed.

Lemma top_k_same_length y_true y_score k extrapolate :
  length y_true = length y_score → k ≠ 0 →
  metrics_py.top_k y_true y_score k extrapolate =
    let y_true := metrics_py.to_float y_true in
    let y_score := metrics_py.to_float y_score in
    let labeled := map (λ y, negb (isnan y)) y_true in
    let n := if extrapolate then Z.of_nat (length y_true) else count_true labeled in
    if negb extrapolate && (k >? n) then Raise (ValueError (range_message k n))
    else if extrapolate then
      let top := slice_from (- k) (argsort y_score) in
      let labeled_top := map (λ y, negb (isnan y)) (take_idx y_true top) in
      Ok (fsum (take_mask labeled_top (take_idx y_true top)), count_true labeled_top)
    else
      let top := slice_from (- k) (argsort (take_mask labeled y_score)) in
      Ok (fsum (take_idx (take_mask labeled y_true) top), k).
Proof.
  intros Hlen Hk. unfold metrics_py.top_k.
  rewrite Hlen, Nat.eqb_refl. cbn [negb].
  destruct (Z.eqb_spec k 0); done.
Qed.

Lemma slice_from_argsort_is_top a k :
  0 < k →
  is_top a (Z.to_nat k `min` length a) (slice_from (- k) (argsort a)).
Proof.
  intros Hk. rewrite slice_from_last, length_argsort by done.
  replace (Z.to_nat k `min` length a)%nat
    with (length a - (length a - Z.to_nat k))%nat by lia.
  apply drop_argsort_is_top.
Qed.

Lemma precision_at_k_labeled_eval y_true y_score k return_bounds :
  length y_true = length y_score → 0 < k →
  let n := Z.of_nat (length (labeled_examples y_true y_score)) in
  let ex := labeled_examples (metrics_py.to_float y_true)
              (metrics_py.to_float y_score) in
  metrics_py.precision_at_k y_true y_score k false return_bounds
  = if k >? n then Raise (ValueError (range_message k n))
    else
      let top := slice_from (- k) (argsort ex.*2) in
      Ok (metrics_py.Point
            (fdiv (fmul (fsum (take_idx ex.*1 top)) (of_Z 1)) (of_Z k))).
Proof.
  intros Hlen Hk n ex.
  assert (Hlen' : length (metrics_py.to_float y_true)
                  = length (metrics_py.to_float y_score))
    by (by rewrite !length_to_float).
  assert (Hn : count_true (map (λ y, negb (isnan y)) (metrics_py.to_float y_true))
               = n).
  { rewrite count_true_map. unfold n.
    rewrite <- length_labeled_examples_to_float.
    rewrite <- (length_fmap fst), labeled_examples_fst by lia.
    by rewrite take_mask_map. }
  unfold metrics_py.precision_at_k.
  rewrite top_k_same_length by (done || lia). cbn zeta.
  rewrite Hn. cbn [negb andb].
  destruct (k >? n); [done|]. cbn [mbind result_bind].
  destruct (Z.eqb_spec k 0); [lia|]. cbn [negb]. unfold ex.
  by rewrite labeled_examples_fst, labeled_examples_snd by lia.
Qed.

Lemma binary_labeled y_true y_score y :
  binary y_true → y ∈ (labeled_examples y_true y_score).*1 →
  y = of_Z 0 ∨ y = of_Z 1.
Proof.
  intros Hbin Hy.
  apply list_elem_of_fmap in Hy as ([y' s] & -> & Hin).
  apply list_elem_of_In, filter_In in Hin as [Hin Hnan]. simpl in *.
  apply list_elem_of_In, elem_of_zip_l in Hin.
  destruct (Hbin y' Hin) as [?|[?|?]]; subst; auto; done.
Qed.

(** C6, as the code has it. Without extrapolation and for k > 0,
    [precision_at_k] looks at the labeled examples only. It raises exactly
    when k exceeds their number, with the ValueError for the range of k.
    Otherwise it returns the sum of the labels of k labeled examples that
    are highest by their score in single precision, over k; for labels 0
    and 1 this is the fraction of positives among them. *)
Theorem precision_at_k_labeled (y_true y_score : list fval) (k : Z)
    (return_bounds : bool) :
  length y_true = length y_score → 0 < k →
  let n := Z.of_nat (length (labeled_examples y_true y_score)) in
  let ex := labeled_examples (metrics_py.to_float y_true)
              (metrics_py.to_float y_score) in
  let r := metrics_py.precision_at_k y_true y_score k false return_bounds in
  (raises r = true ↔ n < k)
  ∧ (n < k → r = Raise (ValueError (range_message k n)))
  ∧ (k ≤ n → ∃ top,
       is_top ex.*2 (Z.to_nat k) top
       ∧ r = Ok (metrics_py.Point
                 (fdiv (fmul (fsum (take_idx ex.*1 top)) (of_Z 1)) (of_Z k)))
       ∧ (binary y_true →
          r = Ok (metrics_py.Point
                 (fin (inject_Z (positives (take_idx ex.*1 top)) / inject_Z k))))).
Proof.
  intros Hlen Hk n ex r.
  assert (Hr := precision_at_k_labeled_eval y_true y_score k return_bounds Hlen Hk).
  cbn zeta in Hr. fold n ex r in Hr. rewrite Hr. clear Hr.
  destruct (Z.gtb_spec k n) as [Hgt|Hle].
  - split; [split; [lia|done]|]. split; [done|lia].
  - split; [split; [done|lia]|]. split; [lia|]. intros _.
    set (top := slice_from (- k) (argsort ex.*2)).
    assert (Hex : length ex.*2 = Z.to_nat n).
    { rewrite length_fmap. unfold ex, n.
      rewrite length_labeled_examples_to_float. lia. }
    assert (Htop : is_top ex.*2 (Z.to_nat k) top).
    { replace (Z.to_nat k) with (Z.to_nat k `min` length ex.*2)%nat by lia.
      by apply slice_from_argsort_is_top. }
    exists top. split; [done|]. split; [done|].
    intros Hbin. do 2 f_equal.
    rewrite fsum_binary, fmul_of_Z_1, fdiv_of_Z_pos; [done..|].
    intros y Hy. destruct Htop as (_ & _ & Hlt & _).
    apply take_idx_elem_of in Hy; [|by rewrite !length_fmap in *].
    apply (binary_labeled y_true (metrics_py.to_float y_score)); [done|].
    unfold ex in Hy. by rewrite (binary_to_float y_true) in Hy.
Qed.

Lemma precision_at_k_labeled_witness :
  raises (metrics_py.precision_at_k example_true example_score 2 false true) = false
  ∧ raises (metrics_py.precision_at_k example_true example_score 4 false true) = true.
Proof.
  split.
  - destruct (precision_at_k_labeled example_true example_score 2 true)
      as (Hiff & _); [reflexivity | lia |].
    destruct (raises _); [|done].
    assert (H : Z.of_nat (length (labeled_examples example_true example_score)) < 2)
      by (by apply Hiff).
    vm_compute in H. discriminate H.
  - apply (precision_at_k_labeled example_true example_score 4 true);
      [reflexivity | lia | vm_compute; reflexivity].
Defined.

Lemma is_top_one a top :
  is_top a 1 top →
  ∃ i, top = [i] ∧ (i < length a)%nat
     ∧ ∀ j, (j < length a)%nat → j ≠ i →
         sort_le (default NaN (a !! j)) (default NaN (a !! i)) = true.
Proof.
  intros (_ & Hl & Hin & Hle).
  destruct top as [|i [|? ?]]; try done.
  exists i. split; [done|]. split; [apply Hin; left|].
  intros j Hj Hne. apply Hle; [left|done|].
  by rewrite list_elem_of_singleton.
Qed.

(** C6 fails as stated: the two scores differ and are the same number in
    single precision. The labeled example of highest score is the first,
    a positive, and the precision at 1 is 0. *)
Lemma precision_at_k_labeled_counterexample :
  let ex := labeled_examples close_true close_score in
  metrics_py.precision_at_k close_true close_score 1 false true
  = Ok (metrics_py.Point (of_Z 0))
  ∧ ∀ top, is_top ex.*2 1 top →
      top = [0%nat]
      ∧ fin (inject_Z (positives (take_idx ex.*1 top)) / inject_Z 1) = of_Z 1.
Proof.
  split; [vm_compute; reflexivity|].
  intros top Htop. apply is_top_one in Htop as (i & -> & Hi & Hle).
  assert (i = 0%nat) as ->.
  { destruct i as [|[|i]]; [done| |simpl in Hi; lia].
    specialize (Hle 0%nat). simpl in Hle.
    assert (H : sort_le (Fin (50000001 # 100000000)) (Fin (1 # 2)) = true)
      by (apply Hle; lia).
    vm_compute in H. discriminate H. }
  split; [done|]. vm_compute. reflexivity.
Qed.

Lemma length_filter_negb {A} (p : A → bool) (l : list A) :
  (length (List.filter p l) + length (List.filter (λ x, negb (p x)) l)
   = length l)%nat.
Proof. induction l as [|x l IH]; simpl; [done|]. destruct (p x); simpl; lia. Qed.

Lemma precision_at_k_eval_extrapolated y_true y_score k :
  length y_true = length y_score → k ≠ 0 →
  let top := slice_from (- k) (argsort (metrics_py.to_float y_score)) in
  let labeled_top := nonmissing (take_idx (metrics_py.to_float y_true) top) in
  let n := fsum labeled_top in
  let d := Z.of_nat (length labeled_top) in
  metrics_py.precision_at_k y_true y_score k true true
  = Ok (metrics_py.WithBounds
          (if negb (d =? 0) then fdiv (fmul n (of_Z 1)) (of_Z d) else NaN)
          d
          (fdiv n (of_Z k), fdiv (fsub (fadd n (of_Z k)) (of_Z d)) (of_Z k))).
Proof.
  intros Hlen Hk top labeled_top n d.
  unfold metrics_py.precision_at_k.
  rewrite top_k_same_length by done. cbn zeta.
  cbn [negb andb mbind result_bind]. fold top.
  rewrite take_mask_map, count_true_map.
  fold (nonmissing (take_idx (metrics_py.to_float y_true) top)).
  destruct (Z.eqb_spec k 0); [lia|]. done.
Qed.

(** C8, as the code has it. With extrapolation and k > 0, [precision_at_k]
    returns the bounds n / k and (n + k - d) / k, where the top is made of
    the k positions that are highest by their score in single precision
    (all the positions when there are fewer than k), n is the sum of the
    labels of the labeled ones among them and d their number. The
    unlabeled positions of the top are k - d when k is no larger than the
    number of examples, and fewer beyond: then the upper bound also counts
    as positive the positions that the top lacks. For k = 0 both bounds
    are NaN. *)
Theorem precision_at_k_bounds (y_true y_score : list fval) (k : Z) :
  length y_true = length y_score →
  (0 < k → ∃ top,
     is_top (metrics_py.to_float y_score)
       (Z.to_nat k `min` length y_score) top
     ∧ let labels := take_idx (metrics_py.to_float y_true) top in
       let n := fsum (nonmissing labels) in
       let d := Z.of_nat (length (nonmissing labels)) in
       metrics_py.precision_at_k y_true y_score k true true
       = Ok (metrics_py.WithBounds
               (if negb (d =? 0) then fdiv (fmul n (of_Z 1)) (of_Z d) else NaN)
               d
               (fdiv n (of_Z k), fdiv (fsub (fadd n (of_Z k)) (of_Z d)) (of_Z k)))
       ∧ Z.of_nat (length (List.filter isnan labels))
         = Z.min k (Z.of_nat (length y_score)) - d)
  ∧ metrics_py.precision_at_k y_true y_score 0 true true
    = Ok (metrics_py.WithBounds NaN 0 (NaN, NaN)).
Proof.
  intros Hlen. split.
  - intros Hk.
    set (top := slice_from (- k) (argsort (metrics_py.to_float y_score))).
    assert (Htop : is_top (metrics_py.to_float y_score)
                     (Z.to_nat k `min` length y_score) top).
    { rewrite <- (length_to_float y_score).
      by apply slice_from_argsort_is_top. }
    exists top. split; [done|]. cbn zeta. split.
    + by rewrite precision_at_k_eval_extrapolated by (done || lia).
    + destruct Htop as (_ & Hl & _).
      pose proof (length_filter_negb isnan
                    (take_idx (metrics_py.to_float y_true) top)) as Hsum.
      unfold take_idx in Hsum at 3. rewrite length_map, Hl in Hsum.
      unfold nonmissing. lia.
  - unfold metrics_py.precision_at_k, metrics_py.top_k.
    by rewrite Hlen, Nat.eqb_refl.
Qed.

Lemma precision_at_k_bounds_witness :
  metrics_py.precision_at_k example_true example_score 0 true true
  = Ok (metrics_py.WithBounds NaN 0 (NaN, NaN))
  ∧ ∃ top, is_top (metrics_py.to_float example_score) 3 top
      ∧ metrics_py.precision_at_k example_true example_score 3 true true
        = Ok (metrics_py.WithBounds
                (of_Z 1)
                (Z.of_nat (length (nonmissing
                   (take_idx (metrics_py.to_float example_true) top))))
                (fdiv (fsum (nonmissing
                   (take_idx (metrics_py.to_float example_true) top))) (of_Z 3),
                 of_Z 1)).
Proof.
  destruct (precision_at_k_bounds example_true example_score 3 eq_refl)
    as [Hpos Hzero].
  split.
  - apply (precision_at_k_bounds example_true example_score 0 eq_refl).
  - destruct (Hpos ltac:(lia)) as (top & Htop & Hr & _).
    exists top. split; [exact Htop|].
    rewrite Hr. revert Hr. vm_compute.
    intros Hr. injection Hr as Hp Hd Hl Hu.
    rewrite <- Hp, <- Hu. reflexivity.
Defined.

(** C8 fails as stated, in two ways. At k = 2 on one labeled example the
    top has no unlabeled example, and the upper bound is 1, not the lower
    bound 1/2. And on two scores that differ and are the same number in
    single precision, the example of highest score is labeled, a positive,
    and the bounds are 0 and 1 with no labeled example counted. *)
Lemma precision_at_k_bounds_counterexample :
  (metrics_py.precision_at_k [of_Z 1] [Fin (1 # 2)] 2 true true
   = Ok (metrics_py.WithBounds (of_Z 1) 1 (Fin (1 # 2), of_Z 1))
   ∧ ∀ top, is_top [Fin (1 # 2)] 1 top →
       bounds_as_claimed (take_idx [of_Z 1] top) 2
       = (1%Z, 0%Z, (Fin (1 # 2), Fin (1 # 2))))
  ∧ (metrics_py.precision_at_k [of_Z 1; NaN] close_score 1 true true
     = Ok (metrics_py.WithBounds NaN 0 (of_Z 0, of_Z 1))
     ∧ ∀ top, is_top close_score 1 top →
         bounds_as_claimed (take_idx [of_Z 1; NaN] top) 1
         = (1%Z, 0%Z, (of_Z 1, of_Z 1))).
Proof.
  split; (split; [vm_compute; reflexivity|]).
  - intros top Htop. apply is_top_one in Htop as (i & -> & Hi & _).
    destruct i as [|i]; [|simpl in Hi; lia]. vm_compute. reflexivity.
  - intros top Htop. apply is_top_one in Htop as (i & -> & Hi & Hle).
    assert (i = 0%nat) as ->.
    { destruct i as [|[|i]]; [done| |simpl in Hi; lia].
      specialize (Hle 0%nat). simpl in Hle.
      assert (H : sort_le (Fin (50000001 # 100000000)) (Fin (1 # 2)) = true)
        by (apply Hle; lia).
      vm_compute in H. discriminate H. }
    vm_compute. reflexivity.
Qed.

(** ** Frames *)

Lemma assoc_set_eq name v cols : assoc name (assoc_set name v cols) = Some v.
Proof.
  induction cols as [|[c w] cols IH]; simpl.
  - by rewrite String.eqb_refl.
  - destruct (String.eqb_spec c name); simpl.
    + subst. by rewrite String.eqb_refl.
    + by destruct (String.eqb_spec c name).
Qed.

Lemma assoc_set_ne name name' v cols :
  name ≠ name' → assoc name' (assoc_set name v cols) = assoc name' cols.
Proof.
  intros Hne. induction cols as [|[c w] cols IH]; simpl.
  - by destruct (String.eqb_spec name name').
  - destruct (String.eqb_spec c name); simpl.
    + subst. by destruct (String.eqb_spec name name').
    + by rewrite IH.
Qed.

Lemma getitem_setitem_eq df name v :
  getitem (setitem df name v) name = Ok (align (length (index df)) v).
Proof. unfold getitem, setitem. simpl. by rewrite assoc_set_eq. Qed.

Lemma getitem_setitem_ne df name name' v :
  name ≠ name' → getitem (setitem df name v) name' = getitem df name'.
Proof. intros. unfold getitem, setitem. simpl. by rewrite assoc_set_ne. Qed.

Lemma align_same n v : length v = n → align n v = v.
Proof.
  intros <-. unfold align.
  by rewrite take_ge, Nat.sub_diag, app_nil_r by lia.
Qed.

Lemma length_align n v : length (align n v) = n.
Proof. unfold align. rewrite length_app, length_take, length_replicate. lia. Qed.

Lemma assoc_elem_of name cols v : assoc name cols = Some v → name ∈ cols.*1.
Proof.
  induction cols as [|[c w] cols IH]; simpl; [done|].
  destruct (String.eqb_spec c name); [subst; left|right; auto].
Qed.

Lemma has_column_getitem df name v :
  getitem df name = Ok v → has_column df name = true.
Proof.
  unfold getitem, has_column. destruct (assoc name (columns df)) eqn:H; [|done].
  intros _. apply bool_decide_eq_true. by eapply assoc_elem_of.
Qed.

Lemma assoc_take_mask name mask cols :
  assoc name (map (λ c, (c.1, take_mask mask c.2)) cols)
  = take_mask mask <$> assoc name cols.
Proof.
  induction cols as [|[c w] cols IH]; simpl; [done|].
  by destruct (String.eqb c name).
Qed.

Lemma getitem_select_mask df mask name v :
  getitem df name = Ok v →
  getitem (select_mask df mask) name = Ok (take_mask mask v).
Proof.
  unfold getitem, select_mask. simpl. rewrite assoc_take_mask.
  destruct (assoc name (columns df)); simpl; congruence.
Qed.

Lemma take_mask_nil {A} (mask : list bool) : take_mask mask (@nil A) = [].
Proof. by destruct mask. Qed.

Lemma take_mask_compose {A B} (p q : A → bool) (ds : list A) (xs : list B) :
  take_mask (map q (List.filter p ds)) (take_mask (map p ds) xs)
  = take_mask (map (λ d, q d && p d) ds) xs.
Proof.
  revert xs. induction ds as [|d ds IH]; intros [|x xs]; simpl; try done.
  - apply take_mask_nil.
  - destruct (p d); simpl.
    + destruct (q d); simpl; by rewrite IH.
    + by rewrite IH, andb_false_r.
Qed.

Lemma select_mask_compose df (p q : fval → bool) ds :
  select_mask (select_mask df (map p ds)) (map q (List.filter p ds))
  = select_mask df (map (λ d, q d && p d) ds).
Proof.
  unfold select_mask. simpl. f_equal.
  - apply take_mask_compose.
  - rewrite map_map. apply map_ext. intros [c v]. simpl. f_equal.
    apply take_mask_compose.
Qed.

Lemma take_mask_none {A B} (p : A → bool) (ds : list A) (xs : list B) :
  (∀ d, d ∈ ds → p d = false) → take_mask (map p ds) xs = [].
Proof.
  revert xs. induction ds as [|d ds IH]; intros [|x xs] H; simpl; try done.
  rewrite (H d) by left. apply IH. intros d' Hd'. apply H. by right.
Qed.

(** ** Censoring *)

(** C4. [censor] returns the rows of the table whose date [d] satisfies
    [end - W <= d < end], or [d < end] for the window without a start: its
    result is the table under the mask of that condition, with the dates
    that satisfy it in the date column. When no date does, the result has
    no rows, and nothing is raised. *)
Theorem censor_window {D} (minus : fval → D → fval) (df : DataFrame)
    (date_column : string) (end_date : fval) (delta : option D)
    (dates : list fval) :
  getitem df date_column = Ok dates →
  let keep := in_window minus end_date delta in
  let out := select_mask df (map keep dates) in
  censor minus df date_column end_date delta = Ok out
  ∧ getitem out date_column = Ok (List.filter keep dates)
  ∧ ((∀ d, d ∈ dates → keep d = false) →
     out = mkDF [] (map (λ c, (c.1, [])) (columns df))).
Proof.
  intros Hdates keep out. split; [|split].
  - unfold censor. rewrite Hdates. cbn [mbind result_bind].
    destruct delta as [delta|]; [|done].
    rewrite (getitem_select_mask _ _ _ _ Hdates). cbn [mbind result_bind].
    rewrite take_mask_map. by rewrite select_mask_compose.
  - unfold out. rewrite (getitem_select_mask _ _ _ _ Hdates).
    by rewrite take_mask_map.
  - intros Hnone. unfold out, select_mask. f_equal.
    + by apply take_mask_none.
    + apply map_ext. intros c. f_equal. by apply take_mask_none.
Qed.

Lemma censor_window_witness :
  censor fsub events "date" (of_Z 9) (Some (of_Z 4))
  = Ok (mkDF [[of_Z 1]] [("date", [of_Z 5]); ("x", [of_Z 20])]).
Proof.
  destruct (censor_window fsub events "date" (of_Z 9) (Some (of_Z 4))
              [of_Z 1; of_Z 5; of_Z 9] eq_refl) as [H _].
  rewrite H. reflexivity.
Defined.

(** ** Aggregation *)

Lemma append_inj_l (s a b : string) : s +:+ a = s +:+ b → a = b.
Proof. induction s as [|c s IH]; simpl; [done|]. intros [=]. auto. Qed.

Lemma numerator_ne_denominator (c : string) :
  c +:+ "_numerator" ≠ c +:+ "_denominator".
Proof. intros H. apply append_inj_l in H. discriminate H. Qed.

Lemma collect_one_inv df3 df4 c a df4' :
  collect_one df3 df4 (c, a) = Ok df4' → ∃ v, df4' = setitem df4 c v.
Proof.
  unfold collect_one.
  destruct (denominator a);
    destruct (getitem df3 (c +:+ "_numerator")); try done;
    cbn [mbind result_bind];
    try (destruct (getitem df3 (c +:+ "_denominator")); try done;
         cbn [mbind result_bind]);
    intros [= <-]; eauto.
Qed.


Lemma foldM_collect_index df3 l df4 out :
  foldM (collect_one df3) df4 l = Ok out → index out = index df4.
Proof.
  revert df4. induction l as [|[c a] l IH]; intros df4 Hf; cbn [foldM] in Hf.
  - by injection Hf as ->.
  - destruct (collect_one df3 df4 (c, a)) as [df4'|] eqn:Hone; [|done].
    cbn [mbind result_bind] in Hf. rewrite (IH _ Hf).
    by apply collect_one_inv in Hone as [v ->].
Qed.




Lemma assoc_is_Some name cols : is_Some (assoc name cols) ↔ name ∈ cols.*1.
Proof.
  split; [intros [v Hv]; by eapply assoc_elem_of|].
  induction cols as [|[c w] cols IH]; simpl.
  - intros H. by apply elem_of_nil in H.
  - intros H. destruct (String.eqb_spec c name); [eauto|].
    apply elem_of_cons in H as [?|?]; [congruence|auto].
Qed.


Lemma generate_one_inv weight st c a st' :
  generate_one weight st (c, a) = Ok st' →
  ∃ v f,
    let df2 := setitem (gen_df2 st) (c +:+ "_numerator") v in
    let agg_dict := <[c +:+ "_numerator" := f]> (gen_agg_dict st) in
    match denominator a with
    | None => gen_df2 st' = df2 ∧ gen_agg_dict st' = agg_dict
    | Some _ => ∃ w fd,
        gen_df2 st' = setitem df2 (c +:+ "_denominator") w
        ∧ gen_agg_dict st' = <[c +:+ "_denominator" := fd]> agg_dict
    end.
Proof.
  unfold generate_one, assign.
  destruct (match numerator a with
            | Some n => __series (gen_df st) n
            | None => Ok (Ser (replicate (length (index (gen_df st))) (of_Z 1)))
            end) as [num|]; [|done].
  cbn [mbind result_bind].
  destruct (weigh (gen_df st) (numerator a) num weight) as [df num'].
  destruct (denominator a) as [d|].
  - destruct (__series df d) as [den|]; [|done]. cbn [mbind result_bind].
    destruct (weigh df (Some d) den weight) as [df' den'].
    intros [= <-]. simpl. eauto 10.
  - intros [= <-]. simpl. eauto.
Qed.











(** C1, as the code has it. Without an index [aggregate] does not aggregate:
    the result has the rows of the table, and a metric with the numerator
    column [x] and the denominator column [w] holds, in each row, the [x]
    of the row over its [w], whatever the function of the metric. *)
Theorem aggregate_without_index (df : DataFrame) (m x w : string)
    (f fd : option aggfunc) (xs ws : list fval) :
  getitem df x = Ok xs → getitem df w = Ok ws →
  length xs = length (index df) → length ws = length (index df) →
  aggregate df {[ m := mkAgg (Some (Name x)) (Some (Name w)) f fd ]} None None
  = Ok (mkDF (index df) [(m, zip_with fdiv xs ws)]).
Proof.
  intros Hx Hw Hlx Hlw.
  unfold aggregate, components, collect. cbn [mbind result_bind].
  rewrite map_to_list_singleton. cbn [foldM].
  unfold generate_one. cbn [numerator denominator gen_df gen_df2 gen_agg_dict func
    denominator_func __series weigh].
  rewrite (has_column_getitem _ _ _ Hx), (has_column_getitem _ _ _ Hw), Hx, Hw.
  cbn [fmap result_fmap mbind result_bind foldM gen_df2].
  unfold assign, collect_one. cbn [denominator broadcast].
  rewrite (getitem_setitem_ne _ (m +:+ "_denominator") (m +:+ "_numerator"))
    by (symmetry; apply numerator_ne_denominator).
  rewrite !getitem_setitem_eq. cbn [mbind result_bind].
  unfold setitem. cbn [index columns assoc_set].
  rewrite (align_same _ xs), (align_same _ ws) by done.
  rewrite align_same; [done|]. rewrite length_zip_with; lia.
Qed.

Lemma aggregate_without_index_witness :
  aggregate two_rows ratio_spec None None
  = Ok (mkDF [[of_Z 0]; [of_Z 1]] [("m", [Fin (1 # 2); PInf])]).
Proof.
  apply (aggregate_without_index two_rows "m" "x" "w" (Some Sum) None
           [of_Z 1; of_Z 3] [of_Z 2; of_Z 0]); reflexivity.
Defined.

(** C1 fails as stated: on the two rows the result is not one row with the
    value 2, whatever the label of the row. *)
Lemma aggregate_without_index_counterexample :
  ¬ ∃ label, aggregate two_rows ratio_spec None None
             = Ok (mkDF [label] [("m", [of_Z 2])]).
Proof.
  intros [label H]. vm_compute in H. discriminate H.
Qed.

(** X1. Without an index the rows are kept, for every specification and
    every weight: when [aggregate] returns, its result has the row labels
    of the table. *)
Lemma aggregate_without_index_rows df columns weight out :
  aggregate df columns weight None = Ok out → index out = index df.
Proof.
  unfold aggregate, components. cbn [mbind result_bind].
  destruct (foldM (generate_one weight) _ _) as [st|] eqn:Hst; [|done].
  cbn [mbind result_bind]. intros Hc.
  apply foldM_collect_index in Hc. rewrite Hc. simpl.
  clear Hc out. revert Hst.
  generalize (map_to_list columns) as l.
  assert (H : ∀ l st0, foldM (generate_one weight) st0 l = Ok st →
                index (gen_df2 st) = index (gen_df2 st0)); [|intros l; apply H].
  induction l as [|[c a] l IH]; intros st0 Hf; cbn [foldM] in Hf.
  - by injection Hf as <-.
  - destruct (generate_one weight st0 (c, a)) as [st'|] eqn:Hone; [|done].
    cbn [mbind result_bind] in Hf. rewrite (IH _ Hf).
    apply generate_one_inv in Hone as (v & f & Hone). cbn zeta in Hone.
    destruct (denominator a).
    + by destruct Hone as (w & fd & -> & _).
    + by destruct Hone as [-> _].
Qed.

(** ** Time windows *)

Lemma append_cons (x : ascii) (a b : string) :
  String x a +:+ b = String x (a +:+ b).
Proof. reflexivity. Qed.

Lemma span_digits (digits rest : string) (u : ascii) :
  all_digits digits = true → is_digit u = false →
  span is_digit (digits +:+ String u rest) = (digits, String u rest).
Proof.
  intros Hd Hu. induction digits as [|c s IH].
  - change (span is_digit (String u rest) = ("", String u rest)).
    cbn [span]. by rewrite Hu.
  - rewrite append_cons. cbn [span]. simpl in Hd.
    apply andb_prop in Hd as [Hc Hs]. by rewrite Hc, IH.
Qed.

Lemma span_app (p : ascii → bool) (s a b : string) :
  span p s = (a, b) → s = a +:+ b.
Proof.
  revert a b. induction s as [|c s IH]; intros a b; cbn [span].
  - by intros [= <- <-].
  - destruct (p c); [|by intros [= <- <-]].
    destruct (span p s) as [a' b']. intros [= <- <-].
    rewrite append_cons. f_equal. by apply IH.
Qed.

Lemma span_all_digits (s a b : string) :
  span is_digit s = (a, b) → all_digits a = true.
Proof.
  revert a b. induction s as [|c s IH]; intros a b; cbn [span].
  - by intros [= <- <-].
  - destruct (is_digit c) eqn:Hc; [|by intros [= <- <-]].
    destruct (span is_digit s) as [a' b']. intros [= <- <-].
    simpl. rewrite Hc. by eapply IH.
Qed.

Lemma units_not_digits (u : ascii) : u ∈ delta_regex_units → is_digit u = false.
Proof.
  unfold delta_regex_units. rewrite !elem_of_cons, elem_of_nil.
  intros [->|[->|[->|[->|[->|[->|[->|[]]]]]]]]; reflexivity.
Qed.

Lemma units_have_fields (u : ascii) :
  u ∈ delta_regex_units → is_Some (delta_chars !! String u "").
Proof.
  unfold delta_regex_units. rewrite !elem_of_cons, elem_of_nil.
  intros [->|[->|[->|[->|[->|[->|[->|[]]]]]]]]; vm_compute; eauto.
Qed.

Lemma digits_not_all (c : ascii) (s : string) :
  is_digit c = true → String.eqb (String c s) "all" = false.
Proof.
  intros Hc. apply String.eqb_neq. intros [= -> _]. discriminate Hc.
Qed.

(** X8. The windows [parse_delta] accepts besides [all]: a string of
    digits followed by one of the units of [delta_regex] is the window of
    that count of the field [delta_chars] gives to the unit. *)
Lemma parse_delta_accepts (digits : string) (u : ascii) :
  digits ≠ "" → all_digits digits = true → u ∈ delta_regex_units →
  ∃ field, delta_chars !! String u "" = Some field
    ∧ parse_delta (digits +:+ String u "")
      = Ok (Some (mkDelta field (int_of_digits digits))).
Proof.
  intros Hne Hd Hu. destruct (units_have_fields u Hu) as [field Hfield].
  exists field. split; [done|]. unfold parse_delta, delta_regex_findall.
  rewrite span_digits by auto using units_not_digits.
  destruct digits as [|c s]; [done|]. rewrite append_cons.
  simpl in Hd. apply andb_prop in Hd as [Hc _].
  rewrite digits_not_all by done.
  rewrite bool_decide_eq_true_2 by done. cbn [at_dollar andb]. by rewrite Hfield.
Qed.

(** X9. And nothing else, but for a newline at the end: a window that
    [parse_delta] returns comes from a string of digits and a unit of
    [delta_regex], which make up the whole argument or are followed by one
    newline. *)
Lemma parse_delta_inv (s : string) (d : relativedelta) :
  parse_delta s = Ok (Some d) →
  ∃ digits u field,
    digits ≠ "" ∧ all_digits digits = true ∧ u ∈ delta_regex_units
    ∧ delta_chars !! String u "" = Some field
    ∧ d = mkDelta field (int_of_digits digits)
    ∧ (s = digits +:+ String u "" ∨ s = digits +:+ String u (String newline "")).
Proof.
  unfold parse_delta, delta_regex_findall.
  destruct (String.eqb s "all"); [done|].
  destruct (span is_digit s) as [digits rest] eqn:Hspan.
  pose proof (span_app _ _ _ _ Hspan) as Hs.
  pose proof (span_all_digits _ _ _ Hspan) as Hd.
  destruct digits as [|c ds]; [done|]. destruct rest as [|u rest]; [done|].
  destruct (bool_decide (u ∈ delta_regex_units)) eqn:Hu; [|done].
  apply bool_decide_eq_true in Hu. cbn [andb].
  destruct (at_dollar rest) eqn:Hend; [|done].
  destruct (delta_chars !! String u "") as [field|] eqn:Hfield; [|done].
  intros [= <-]. exists (String c ds), u, field.
  repeat split; try done.
  destruct rest as [|n rest]; [by left|]. right.
  destruct rest; [|done]. simpl in Hend.
  apply bool_decide_eq_true in Hend. by subst.
Qed.

(** C3 fails on the code for the unit of weeks: [delta_chars] names the
    weeks, and [delta_regex] has no alternative for them, so a count of
    weeks is refused. A newline after a window is accepted, since [$]
    matches before it. *)
Theorem parse_delta_weeks :
  delta_chars !! "w" = Some "weeks"
  ∧ parse_delta "3w" = Raise (ValueError "Invalid delta string: 3w")
  ∧ parse_delta ("3y" +:+ String newline "") = Ok (Some (mkDelta "years" 3)).
Proof. repeat split; vm_compute; reflexivity. Qed.

(** ** SpacetimeAggregator *)

(** C5 fails on the code: [__init__] sets no attribute [dtypes], and
    [read] looks it up for the first column of the pivoted frame. *)
Theorem read_pivoted_dtypes (spacedeltas : gmap string Spacedeltas)
    (dates : list date) (prefix basedir : string) (df : Panel column_key)
    (c : column_key) (columns : list column_key) :
  read_pivoted (SpacetimeAggregator_init spacedeltas dates prefix basedir)
    df (c :: columns)
  = Raise (AttributeError "dtypes").
Proof.
  unfold read_pivoted. cbn [filter_declared].
  unfold get_dtypes, getattr, SpacetimeAggregator_init.
  rewrite !lookup_insert_ne by done. by rewrite lookup_empty.
Qed.

(** ** Column names *)

Lemma append_assoc (a b c : string) : (a +:+ b) +:+ c = a +:+ b +:+ c.
Proof.
  induction a as [|x a IH]; [done|]. by rewrite !append_cons, IH.
Qed.

Lemma span_field (s rest : string) :
  no_underscore s = true →
  span not_underscore (s +:+ String "_" rest) = (s, String "_" rest).
Proof.
  induction s as [|c s IH]; [done|]. rewrite append_cons. simpl.
  intros [Hc Hs]%andb_prop. by rewrite Hc, IH.
Qed.

Lemma prefix_field_field (s rest : string) :
  no_underscore s = true → s ≠ "" →
  prefix_field (s +:+ "_" +:+ rest) = Some (s +:+ "_", rest).
Proof.
  intros Hs Hne. unfold prefix_field.
  change ("_" +:+ rest) with (String "_" rest).
  rewrite span_field by done. by destruct s.
Qed.

(** C9, as the code has it. For a prefix, a space and a delta that are not
    empty and hold no underscore, [get_spacetime_prefix] of the panel
    column name returns the prefix, the space and the delta, each followed
    by an underscore. *)
Theorem get_spacetime_prefix_panel_column (prefix space delta metric : string) :
  no_underscore prefix = true → no_underscore space = true →
  no_underscore delta = true →
  prefix ≠ "" → space ≠ "" → delta ≠ "" →
  get_spacetime_prefix (panel_column prefix space delta metric)
  = Ok (prefix +:+ "_" +:+ space +:+ "_" +:+ delta +:+ "_").
Proof.
  intros Hp Hs Hd Hpn Hsn Hdn.
  unfold get_spacetime_prefix, spacetime_prefix_regex_findall, panel_column.
  rewrite !prefix_field_field by done. simpl.
  by rewrite !append_assoc.
Qed.

Lemma get_spacetime_prefix_panel_column_witness :
  get_spacetime_prefix (panel_column "tests" "tract" "3y" "count_x")
  = Ok "tests_tract_3y_".
Proof.
  apply (get_spacetime_prefix_panel_column "tests" "tract" "3y" "count_x");
    (reflexivity || discriminate).
Defined.

(** C9 fails as stated: the empty prefix holds no underscore, and no prefix
    is found in the name of the column. *)
Lemma get_spacetime_prefix_counterexample :
  no_underscore "" = true ∧ no_underscore "tract" = true
  ∧ no_underscore "3y" = true
  ∧ get_spacetime_prefix (panel_column "" "tract" "3y" "count_x")
    = Raise IndexError.
Proof. repeat split. Qed.

(** * Further properties *)

(** ** Precision at k, evaluated *)

Lemma precision_at_k_eval_labeled y_true y_score k return_bounds :
  length y_true = length y_score → 0 < k →
  k ≤ Z.of_nat (length (labeled_examples y_true y_score)) →
  let ex := labeled_examples (metrics_py.to_float y_true)
              (metrics_py.to_float y_score) in
  let top := slice_from (- k) (argsort ex.*2) in
  metrics_py.precision_at_k y_true y_score k false return_bounds
  = Ok (metrics_py.Point
          (fdiv (fmul (fsum (take_idx ex.*1 top)) (of_Z 1)) (of_Z k))).
Proof.
  intros Hlen Hk Hle ex top.
  rewrite precision_at_k_labeled_eval by done. cbn zeta.
  destruct (Z.gtb_spec k (Z.of_nat (length (labeled_examples y_true y_score))));
    [lia|done].
Qed.

Lemma length_slice_from_last {A} (k : Z) (l : list A) :
  0 < k → length (slice_from (- k) l) = (Z.to_nat k `min` length l)%nat.
Proof. intros Hk. rewrite slice_from_last, length_drop by done. lia. Qed.

(** ** Arithmetic of the values *)

Lemma fle_fin_red a b : fle (fin a) (fin b) = true ↔ (a <= b)%Q.
Proof. unfold fin. by rewrite fle_fin, Qred_le. Qed.

Lemma fneg_of_Z a : fneg (of_Z a) = of_Z (- a).
Proof.
  unfold fneg, of_Z, fin. rewrite <- (Qred_inject_Z (- a)). f_equal.
Qed.

Lemma fsub_of_Z a b : fsub (of_Z a) (of_Z b) = of_Z (a - b).
Proof. unfold fsub. by rewrite fneg_of_Z, fadd_of_Z. Qed.

Lemma Qdiv_Z_le (a b c d : Z) :
  0 < b → 0 < d → a * d ≤ c * b →
  (inject_Z a / inject_Z b <= inject_Z c / inject_Z d)%Q.
Proof.
  intros Hb Hd Hle.
  destruct b as [|b|b]; try lia. destruct d as [|d|d]; try lia.
  unfold Qle, Qdiv, Qmult, Qinv, inject_Z. simpl. lia.
Qed.

Lemma positives_bounds labels :
  0 ≤ positives labels ≤ Z.of_nat (length labels).
Proof.
  unfold positives. split; [lia|].
  apply inj_le, filter_length_le.
Qed.

Lemma binary_nonmissing labels y :
  binary labels → y ∈ nonmissing labels → y = of_Z 0 ∨ y = of_Z 1.
Proof.
  intros Hbin Hy. apply list_elem_of_In, filter_In in Hy as [Hin Hnan].
  apply list_elem_of_In in Hin.
  destruct (Hbin y Hin) as [?|[?|?]]; subst; auto; done.
Qed.

Lemma binary_take_idx a idx :
  binary a → binary (take_idx a idx).
Proof.
  intros Hbin y Hy. apply list_elem_of_fmap in Hy as (i & -> & _).
  destruct (a !! i) as [x|] eqn:Hx; simpl; [|auto].
  apply Hbin. by eapply list_elem_of_lookup_2.
Qed.

(** X16. For labels 0 and 1 and k > 0 no larger than the number of labeled
    examples, the precision without extrapolation is a number between 0
    and 1. *)
Theorem precision_at_k_unit_interval (y_true y_score : list fval) (k : Z)
    (return_bounds : bool) :
  length y_true = length y_score → 0 < k →
  k ≤ Z.of_nat (length (labeled_examples y_true y_score)) →
  binary y_true →
  ∃ p, metrics_py.precision_at_k y_true y_score k false return_bounds
       = Ok (metrics_py.Point (Fin p))
     ∧ (0 <= p)%Q ∧ (p <= 1)%Q.
Proof.
  intros Hlen Hk Hle Hbin.
  rewrite precision_at_k_eval_labeled by done. cbn zeta.
  rewrite (binary_to_float y_true) by done.
  rewrite <- (length_labeled_examples_to_float y_true y_score) in Hle.
  rewrite (binary_to_float y_true) in Hle by done.
  set (ex := labeled_examples y_true (metrics_py.to_float y_score)) in *.
  set (top := slice_from (- k) (argsort ex.*2)).
  assert (Hbin' : ∀ y, y ∈ take_idx ex.*1 top → y = of_Z 0 ∨ y = of_Z 1).
  { intros y Hy.
    apply (binary_labeled y_true (metrics_py.to_float y_score)); [done|].
    eapply take_idx_elem_of; [|done]. intros i Hi.
    unfold top in Hi. rewrite slice_from_last in Hi by done.
    apply subseteq_drop in Hi.
    rewrite argsort_perm in Hi. apply elem_of_seq in Hi.
    rewrite !length_fmap in *. fold ex. lia. }
  rewrite fsum_binary, fmul_of_Z_1, fdiv_of_Z_pos by done.
  eexists. split; [reflexivity|].
  pose proof (positives_bounds (take_idx ex.*1 top)) as [Hp0 Hp1].
  assert (Hltop : length (take_idx ex.*1 top) = Z.to_nat k).
  { unfold take_idx, top. rewrite length_map, length_slice_from_last by done.
    rewrite length_argsort, length_fmap. lia. }
  rewrite Hltop in Hp1. rewrite !Qred_correct. split.
  - change 0%Q with (inject_Z 0 / inject_Z 1)%Q. apply Qdiv_Z_le; lia.
  - change 1%Q with (inject_Z 1 / inject_Z 1)%Q. apply Qdiv_Z_le; lia.
Qed.

Lemma precision_at_k_unit_interval_witness :
  ∃ p, metrics_py.precision_at_k example_true example_score 3 false true
       = Ok (metrics_py.Point (Fin p))
     ∧ (0 <= p)%Q ∧ (p <= 1)%Q.
Proof.
  apply (precision_at_k_unit_interval example_true example_score 3 true).
  - reflexivity.
  - lia.
  - vm_compute. discriminate.
  - intros y Hy. unfold example_true in Hy.
    rewrite !elem_of_cons, elem_of_nil in Hy. intuition.
Defined.


Lemma length_take_idx a idx : length (take_idx a idx) = length idx.
Proof. apply length_map. Qed.

(** X17. With extrapolation, labels 0 and 1 and k > 0: the number d of
    labeled examples in the top is at most k, the lower bound is at most
    the upper bound, and when there is a labeled example in the top the
    precision lies between the two bounds. *)
Theorem precision_at_k_bracket (y_true y_score : list fval) (k : Z) :
  length y_true = length y_score → 0 < k → binary y_true →
  ∃ p d lower upper,
    metrics_py.precision_at_k y_true y_score k true true
    = Ok (metrics_py.WithBounds p d (lower, upper))
    ∧ 0 ≤ d ≤ k
    ∧ fle lower upper = true
    ∧ (d ≠ 0 → fle lower p = true ∧ fle p upper = true).
Proof.
  intros Hlen Hk Hbin.
  rewrite precision_at_k_eval_extrapolated by (done || lia). cbn zeta.
  rewrite (binary_to_float y_true) by done.
  set (top := slice_from (- k) (argsort (metrics_py.to_float y_score))).
  set (L := nonmissing (take_idx y_true top)).
  assert (HL : ∀ y, y ∈ L → y = of_Z 0 ∨ y = of_Z 1).
  { intros y Hy. eapply binary_nonmissing; [|done]. by apply binary_take_idx. }
  assert (Hd : Z.of_nat (length L) ≤ k).
  { unfold L, nonmissing. pose proof (filter_length_le (λ y, negb (isnan y))
      (take_idx y_true top)) as Hf.
    rewrite length_take_idx in Hf. unfold top in Hf.
    rewrite length_slice_from_last in Hf by done. unfold top. lia. }
  pose proof (positives_bounds L) as [Hp0 Hp1].
  rewrite fsum_binary, fmul_of_Z_1 by done.
  rewrite fadd_of_Z, fsub_of_Z, !(fdiv_of_Z_pos _ k) by done.
  do 4 eexists. split; [reflexivity|]. split; [lia|]. split.
  - apply fle_fin_red. apply Qdiv_Z_le; nia.
  - intros Hd0. destruct (Z.eqb_spec (Z.of_nat (length L)) 0); [done|].
    cbn [negb]. rewrite fdiv_of_Z_pos by lia. split.
    + apply fle_fin_red. apply Qdiv_Z_le; nia.
    + apply fle_fin_red. apply Qdiv_Z_le; nia.
Qed.

Lemma precision_at_k_bracket_witness :
  ∃ p d lower upper,
    metrics_py.precision_at_k example_true example_score 3 true true
    = Ok (metrics_py.WithBounds p d (lower, upper))
    ∧ 0 ≤ d ≤ 3
    ∧ fle lower upper = true
    ∧ (d ≠ 0 → fle lower p = true ∧ fle p upper = true).
Proof.
  apply (precision_at_k_bracket example_true example_score 3).
  - reflexivity.
  - lia.
  - intros y Hy. unfold example_true in Hy.
    rewrite !elem_of_cons, elem_of_nil in Hy. intuition.
Defined.








(** ** Sums do not depend on the order *)







(** ** Running sums *)

Lemma length_cumsum_from acc a :
  length (metrics_py.cumsum_from acc a) = length a.
Proof. revert acc. induction a as [|x a IH]; intros acc; simpl; [done|]. by rewrite IH. Qed.

Lemma length_cumcount_from acc mask :
  length (metrics_py.cumcount_from acc mask) = length mask.
Proof.
  revert acc. induction mask as [|m mask IH]; intros acc; simpl; [done|].
  by rewrite IH.
Qed.

Lemma lookup_cumsum_from acc a i :
  (i < length a)%nat →
  metrics_py.cumsum_from acc a !! i = Some (foldl fadd acc (take (S i) a)).
Proof.
  revert acc i. induction a as [|x a IH]; intros acc [|i] Hi; simpl in *; try lia.
  - by destruct a.
  - rewrite IH by lia. done.
Qed.

Lemma lookup_cumcount_from acc mask i :
  (i < length mask)%nat →
  metrics_py.cumcount_from acc mask !! i
  = Some (acc + count_true (take (S i) mask)).
Proof.
  revert acc i.
  induction mask as [|m mask IH]; intros acc [|i] Hi; simpl in *; try lia.
  - destruct mask, m; simpl; f_equal; unfold count_true; simpl; lia.
  - rewrite IH by lia. f_equal. unfold count_true. simpl.
    destruct m; simpl; lia.
Qed.

(** ** Indexing *)

Lemma getitems_in_range a idx :
  (∀ i, i ∈ idx → (i < length a)%nat) →
  metrics_py.getitems a idx = Ok (take_idx a idx).
Proof.
  unfold metrics_py.getitems, take_idx.
  induction idx as [|i idx IH]; intros Hidx; simpl; [done|].
  destruct (lookup_lt_is_Some_2 a i) as [x Hx]; [apply Hidx; left|].
  rewrite Hx. cbn [mbind result_bind]. rewrite IH; [done|].
  intros j Hj. apply Hidx. by right.
Qed.

Lemma getitems_out_of_range a idx i :
  i ∈ idx → (length a ≤ i)%nat →
  metrics_py.getitems a idx = Raise IndexError.
Proof.
  unfold metrics_py.getitems.
  induction idx as [|j idx IH]; intros Hi Hlen; simpl.
  - by apply elem_of_nil in Hi.
  - destruct (a !! j) as [x|] eqn:Hx; [|done]. cbn [mbind result_bind].
    apply elem_of_cons in Hi as [->|Hi].
    + apply lookup_lt_Some in Hx. lia.
    + by rewrite IH.
Qed.

Lemma slice_to_nonneg {A} (k : Z) (l : list A) :
  0 ≤ k → metrics_py.slice_to k l = take (Z.to_nat k) l.
Proof.
  intros Hk. unfold metrics_py.slice_to.
  destruct (Z.ltb_spec k 0); [lia|].
  destruct (Z.min_spec k (Z.of_nat (length l))) as [[? ->]|[? ->]]; [done|].
  rewrite Nat2Z.id, !take_ge; [done|lia..].
Qed.

Lemma length_arange_1 k : length (metrics_py.arange 1 (k + 1)) = Z.to_nat k.
Proof. unfold metrics_py.arange. rewrite length_seqZ. f_equal. lia. Qed.


Lemma head_ranks_in_range y_score k i :
  i ∈ head_ranks y_score k → (i < length y_score)%nat.
Proof.
  intros Hi. apply subseteq_take in Hi.
  rewrite elem_of_reverse, argsort_perm in Hi. apply elem_of_seq in Hi. lia.
Qed.

Lemma length_head_ranks y_score k :
  length (head_ranks y_score k) = (Z.to_nat k `min` length y_score)%nat.
Proof.
  unfold head_ranks. by rewrite length_take, length_reverse, length_argsort.
Qed.

Lemma filter_perm_length {A} (f : A → bool) (l l' : list A) :
  l ≡ₚ l' → length (List.filter f l) = length (List.filter f l').
Proof.
  induction 1 as [|x l l' _ IH|x y l|l l' l'' _ IH1 _ IH2]; simpl.
  - done.
  - destruct (f x); simpl; lia.
  - destruct (f x), (f y); simpl; lia.
  - lia.
Qed.


Lemma take_take_idx a idx n : take n (take_idx a idx) = take_idx a (take n idx).
Proof. unfold take_idx. symmetry. apply fmap_take. Qed.

Lemma count_true_nonmissing labels :
  count_true (map (λ y, negb (isnan y)) labels)
  = Z.of_nat (length (nonmissing labels)).
Proof. apply count_true_map. Qed.

Lemma precision_series_eval y_true y_score k :
  (length y_score ≤ length y_true)%nat →
  0 ≤ k ≤ Z.of_nat (length y_score) →
  let labels := take_idx (metrics_py.to_float y_true)
                  (head_ranks (metrics_py.to_float y_score) k) in
  metrics_py.precision_series y_true y_score (Some k)
  = Ok (zip (seqZ 1 k)
          (zip_with (λ n d, fdiv n (of_Z d))
             (metrics_py.cumsum (map metrics_py.nan_to_num labels))
             (metrics_py.cumcount (map (λ y, negb (isnan y)) labels)))).
Proof.
  intros Hlen Hk labels.
  unfold metrics_py.precision_series.
  rewrite slice_to_nonneg by lia.
  fold (head_ranks (metrics_py.to_float y_score) k).
  rewrite getitems_in_range.
  2:{ intros i Hi. apply head_ranks_in_range in Hi.
      rewrite !length_to_float in *. lia. }
  cbn [mbind result_bind]. fold labels. unfold metrics_py.Series.
  assert (Hl : length labels = Z.to_nat k).
  { unfold labels.
    rewrite length_take_idx, length_head_ranks, length_to_float. lia. }
  rewrite length_zip_with, length_arange_1.
  unfold metrics_py.cumsum, metrics_py.cumcount.
  rewrite length_cumsum_from, length_cumcount_from, !length_map, Hl.
  rewrite Nat.min_id, Nat.eqb_refl. unfold metrics_py.arange.
  by replace (k + 1 - 1) with k by lia.
Qed.

(** X19. [precision_series] does not compare the lengths of its arguments.
    When there are no more scores than labels, a cutoff k between 0 and the
    number of scores gives a series indexed from 1 to k, and a larger k
    raises a ValueError; when there are more scores than labels, ranking
    all the scores raises an IndexError. *)
Theorem precision_series_shape (y_true y_score : list fval) (k : Z) :
  ((length y_score ≤ length y_true)%nat →
   0 ≤ k ≤ Z.of_nat (length y_score) →
   ∃ s, metrics_py.precision_series y_true y_score (Some k) = Ok s
      ∧ s.*1 = seqZ 1 k)
  ∧ ((length y_score ≤ length y_true)%nat →
     Z.of_nat (length y_score) < k →
     ∃ msg, metrics_py.precision_series y_true y_score (Some k)
            = Raise (ValueError msg))
  ∧ ((length y_true < length y_score)%nat →
     metrics_py.precision_series y_true y_score
       (Some (Z.of_nat (length y_score)))
     = Raise IndexError).
Proof.
  split; [|split].
  - intros Hlen Hk. rewrite precision_series_eval by done. cbn zeta.
    eexists. split; [reflexivity|].
    rewrite fst_zip; [done|].
    rewrite length_seqZ, length_zip_with.
    unfold metrics_py.cumsum, metrics_py.cumcount.
    rewrite length_cumsum_from, length_cumcount_from, !length_map.
    rewrite length_take_idx, length_head_ranks, length_to_float. lia.
  - intros Hlen Hk.
    unfold metrics_py.precision_series.
    rewrite slice_to_nonneg by lia.
    fold (head_ranks (metrics_py.to_float y_score) k).
    rewrite getitems_in_range.
    2:{ intros i Hi. apply head_ranks_in_range in Hi.
        rewrite !length_to_float in *. lia. }
    cbn [mbind result_bind]. unfold metrics_py.Series.
    rewrite length_zip_with, length_arange_1.
    unfold metrics_py.cumsum, metrics_py.cumcount.
    rewrite length_cumsum_from, length_cumcount_from, !length_map.
    rewrite length_take_idx, length_head_ranks, length_to_float.
    destruct (Nat.eqb_spec ((Z.to_nat k `min` length y_score)
                            `min` (Z.to_nat k `min` length y_score))
                           (Z.to_nat k)); [lia|]. eauto.
  - intros Hlen.
    unfold metrics_py.precision_series.
    rewrite slice_to_nonneg by lia.
    rewrite (getitems_out_of_range _ _ (length y_true));
      [done| |by rewrite length_to_float].
    rewrite Nat2Z.id.
    rewrite take_ge
      by (rewrite length_reverse, length_argsort, length_to_float; lia).
    rewrite elem_of_reverse, argsort_perm, length_to_float.
    apply elem_of_seq. lia.
Qed.

Lemma precision_series_shape_witness :
  (∃ s, metrics_py.precision_series example_true example_score (Some 2) = Ok s
      ∧ s.*1 = [1; 2])
  ∧ (∃ msg, metrics_py.precision_series example_true example_score (Some 5)
            = Raise (ValueError msg))
  ∧ metrics_py.precision_series [of_Z 1] [Fin (1 # 2); Fin (1 # 3)] (Some 2)
    = Raise IndexError.
Proof.
  destruct (precision_series_shape example_true example_score 2) as (H1 & _ & _).
  destruct (precision_series_shape example_true example_score 5) as (_ & H2 & _).
  destruct (precision_series_shape [of_Z 1] [Fin (1 # 2); Fin (1 # 3)] 2)
    as (_ & _ & H3).
  split; [|split].
  - apply H1; simpl; lia.
  - apply H2; simpl; lia.
  - apply H3. simpl. lia.
Defined.

Lemma strongly_sorted_lookup {A} (R : relation A) (l : list A) i j x y :
  StronglySorted R l → (i < j)%nat →
  l !! i = Some x → l !! j = Some y → R x y.
Proof.
  intros Hs. revert i j.
  induction Hs as [|z l Hs IH Hall]; intros i j Hij Hi Hj; [done|].
  destruct j as [|j]; [lia|]. simpl in Hj.
  destruct i as [|i].
  - injection Hi as <-. rewrite Forall_forall in Hall.
    apply Hall. by eapply list_elem_of_lookup_2.
  - simpl in Hi. apply (IH i j); [lia|done..].
Qed.

Lemma reverse_argsort_is_ranking a : is_ranking a (reverse (argsort a)).
Proof.
  split; [by rewrite reverse_Permutation, argsort_perm|].
  set (sorted := merge_sort score_le (zip (seq 0 (length a)) a)).
  assert (Hperm : sorted ≡ₚ zip (seq 0 (length a)) a)
    by apply merge_sort_Permutation.
  assert (Hsorted : StronglySorted score_le sorted)
    by apply (StronglySorted_merge_sort _).
  intros i j x y Hij Hi Hj.
  assert (Hlj : (j < length (argsort a))%nat).
  { apply lookup_lt_Some in Hj. by rewrite length_reverse in Hj. }
  rewrite reverse_lookup in Hi, Hj by lia.
  set (n := length (argsort a)) in *.
  unfold argsort in Hi, Hj. fold sorted in Hi, Hj.
  rewrite list_lookup_fmap in Hi, Hj.
  destruct (sorted !! (n - S i)%nat) as [[x' sx]|] eqn:Hx; [|done].
  destruct (sorted !! (n - S j)%nat) as [[y' sy]|] eqn:Hy; [|done].
  simpl in Hi, Hj. injection Hi as ->. injection Hj as ->.
  assert (Hax : a !! x = Some sx).
  { apply elem_of_zip_seq. rewrite <- Hperm. by eapply list_elem_of_lookup_2. }
  assert (Hay : a !! y = Some sy).
  { apply elem_of_zip_seq. rewrite <- Hperm. by eapply list_elem_of_lookup_2. }
  rewrite Hax, Hay. simpl.
  apply (score_le_sort_le (y, sy) (x, sx)).
  apply (strongly_sorted_lookup score_le sorted (n - S j) (n - S i));
    [done|lia|done..].
Qed.

(** X20. When there are no more scores than labels and k is between 0 and
    the number of scores, [precision_series] follows a ranking of the
    examples by their score in single precision, the highest first: its
    entry at index i + 1 is computed on the first i + 1 examples of the
    ranking, as the sum of their labels, a missing one counting for 0,
    over the number of their labels that are not missing. *)
Theorem precision_series_running (y_true y_score : list fval) (k : Z) :
  (length y_score ≤ length y_true)%nat →
  0 ≤ k ≤ Z.of_nat (length y_score) →
  ∃ ranks s,
    is_ranking (metrics_py.to_float y_score) ranks
    ∧ metrics_py.precision_series y_true y_score (Some k) = Ok s
    ∧ ∀ i, (i < Z.to_nat k)%nat →
        let labels :=
          take_idx (metrics_py.to_float y_true) (take (S i) ranks) in
        s !! i
        = Some (Z.of_nat i + 1,
                fdiv (fsum (map metrics_py.nan_to_num labels))
                     (of_Z (Z.of_nat (length (nonmissing labels))))).
Proof.
  intros Hlen Hk.
  exists (reverse (argsort (metrics_py.to_float y_score))).
  rewrite precision_series_eval by done. cbn zeta.
  eexists. split; [apply reverse_argsort_is_ranking|].
  split; [reflexivity|]. intros i Hi.
  set (all := take_idx (metrics_py.to_float y_true)
                (head_ranks (metrics_py.to_float y_score) k)).
  assert (Hall : length all = Z.to_nat k).
  { unfold all.
    rewrite length_take_idx, length_head_ranks, length_to_float. lia. }
  assert (Hlab : take (S i) all
                 = take_idx (metrics_py.to_float y_true)
                     (take (S i)
                        (reverse (argsort (metrics_py.to_float y_score))))).
  { unfold all, head_ranks. rewrite take_take_idx, take_take.
    do 2 f_equal. lia. }
  apply lookup_zip_Some. split; [apply lookup_seqZ; lia|].
  rewrite lookup_zip_with.
  unfold metrics_py.cumsum, metrics_py.cumcount.
  rewrite lookup_cumsum_from, lookup_cumcount_from by (rewrite length_map; lia).
  cbn [mbind option_bind]. do 2 f_equal.
  - by rewrite <- fmap_take, Hlab.
  - rewrite <- fmap_take, Hlab, Z.add_0_l. f_equal. apply count_true_nonmissing.
Qed.

Lemma precision_series_running_witness :
  ∃ ranks s,
    is_ranking (metrics_py.to_float example_score) ranks
    ∧ metrics_py.precision_series example_true example_score (Some 4) = Ok s
    ∧ ∀ i, (i < 4)%nat →
        let labels :=
          take_idx (metrics_py.to_float example_true) (take (S i) ranks) in
        s !! i
        = Some (Z.of_nat i + 1,
                fdiv (fsum (map metrics_py.nan_to_num labels))
                     (of_Z (Z.of_nat (length (nonmissing labels))))).
Proof.
  apply (precision_series_running example_true example_score 4);
    simpl; lia.
Defined.



(** A finite label that the cast makes infinite: the entry of the series
    is the largest number of single precision, the precision at k is
    infinite. *)
Lemma precision_series_at_k_overflow :
  is_inf (of_Z (10 ^ 39)) = false
  ∧ metrics_py.precision_series [of_Z (10 ^ 39)] [Fin (1 # 2)] (Some 1)
    = Ok [(1, Fin metrics_py.float32_max)]
  ∧ metrics_py.precision_at_k [of_Z (10 ^ 39)] [Fin (1 # 2)] 1 true true
    = Ok (metrics_py.WithBounds PInf 1 (PInf, PInf)).
Proof. repeat split; vm_compute; reflexivity. Qed.

Lemma fle_of_Z a b : fle (of_Z a) (of_Z b) = true ↔ a ≤ b.
Proof. unfold of_Z. by rewrite fle_fin, <- Zle_Qle. Qed.

Lemma binary_nan_to_num labels y :
  binary labels → y ∈ map metrics_py.nan_to_num labels →
  y = of_Z 0 ∨ y = of_Z 1.
Proof.
  intros Hbin Hy. apply list_elem_of_fmap in Hy as (x & -> & Hx).
  destruct (Hbin x Hx) as [->|[->| ->]]; auto.
Qed.

Lemma positives_cons y l :
  positives (y :: l) = (if feqb (of_Z 1) y then 1 else 0) + positives l.
Proof.
  unfold positives. cbn [List.filter].
  destruct (feqb (of_Z 1) y); cbn [length]; lia.
Qed.

Lemma positives_nan_to_num labels :
  binary labels → positives (map metrics_py.nan_to_num labels) = positives labels.
Proof.
  induction labels as [|y l IH]; intros Hbin; [done|].
  assert (binary l) by (intros y' Hy'; apply Hbin; by right).
  cbn [map]. rewrite !positives_cons, IH by done.
  destruct (Hbin y) as [->|[->| ->]]; [left|..]; reflexivity.
Qed.

Lemma positives_take_mono labels n :
  positives (take n labels) ≤ positives (take (S n) labels).
Proof.
  revert n. induction labels as [|y l IH]; intros n; [by destruct n|].
  destruct n as [|n].
  - cbn [take]. rewrite positives_cons.
    change (positives []) with 0.
    pose proof (positives_bounds (take 0 l)).
    destruct (feqb (of_Z 1) y); lia.
  - cbn [take]. rewrite !positives_cons. specialize (IH n). cbn [take] in IH. lia.
Qed.

Lemma binary_one_minus labels :
  binary labels → binary (map metrics_py.one_minus labels).
Proof.
  intros Hbin y Hy. apply list_elem_of_fmap in Hy as (x & -> & Hx).
  unfold metrics_py.one_minus.
  destruct (Hbin x Hx) as [->|[->| ->]]; rewrite ?fsub_of_Z; auto.
Qed.

Lemma recall_series_eval y_true y_score k value :
  (length y_score ≤ length y_true)%nat →
  0 ≤ k ≤ Z.of_nat (length y_score) →
  let labels :=
    take_idx (if negb value
              then map metrics_py.one_minus (metrics_py.to_float y_true)
              else metrics_py.to_float y_true)
             (head_ranks (metrics_py.to_float y_score) k) in
  metrics_py.recall_series y_true y_score (Some k) value
  = Ok (zip (seqZ 1 k) (metrics_py.cumsum (map metrics_py.nan_to_num labels))).
Proof.
  intros Hlen Hk labels.
  unfold metrics_py.recall_series.
  rewrite slice_to_nonneg by lia.
  fold (head_ranks (metrics_py.to_float y_score) k).
  rewrite getitems_in_range.
  2:{ intros i Hi. apply head_ranks_in_range in Hi.
      rewrite length_to_float in Hi.
      destruct value; cbn [negb]; rewrite ?length_map, length_to_float; lia. }
  cbn [mbind result_bind]. fold labels. unfold metrics_py.Series.
  rewrite length_arange_1. unfold metrics_py.cumsum.
  rewrite length_cumsum_from, length_map.
  unfold labels. rewrite length_take_idx, length_head_ranks, length_to_float.
  destruct (Nat.eqb_spec (Z.to_nat k `min` length y_score) (Z.to_nat k)); [|lia].
  unfold metrics_py.arange. by replace (k + 1 - 1) with k by lia.
Qed.

(** X22. For labels 0 and 1 (or missing), no more scores than labels and k
    between 0 and the number of scores, [recall_series] follows a ranking
    of the examples by their score in single precision, the highest first:
    its entry at index i + 1 is the number of recalled labels among the
    first i + 1 examples of the ranking. The series never decreases,
    whichever label is recalled. *)
Theorem recall_series_monotone (y_true y_score : list fval) (k : Z)
    (value : bool) :
  (length y_score ≤ length y_true)%nat →
  0 ≤ k ≤ Z.of_nat (length y_score) → binary y_true →
  ∃ ranks s,
    is_ranking (metrics_py.to_float y_score) ranks
    ∧ metrics_py.recall_series y_true y_score (Some k) value = Ok s
    ∧ (∀ i, (i < Z.to_nat k)%nat →
         s !! i
         = Some (Z.of_nat i + 1,
                 of_Z (positives
                         (take_idx
                            (if negb value
                             then map metrics_py.one_minus y_true
                             else y_true)
                            (take (S i) ranks)))))
    ∧ (∀ i a b, s !! i = Some a → s !! S i = Some b → fle a.2 b.2 = true).
Proof.
  intros Hlen Hk Hbin.
  exists (reverse (argsort (metrics_py.to_float y_score))).
  rewrite recall_series_eval by done. cbn zeta.
  rewrite (binary_to_float y_true) by done.
  set (ys := metrics_py.to_float y_score).
  assert (Hls : length ys = length y_score) by apply length_to_float.
  set (labels := if negb value then map metrics_py.one_minus y_true else y_true).
  assert (Hbin' : binary labels).
  { unfold labels. destruct value; simpl; [done|by apply binary_one_minus]. }
  set (all := take_idx labels (head_ranks ys k)).
  assert (Hall : length all = Z.to_nat k).
  { unfold all. rewrite length_take_idx, length_head_ranks. lia. }
  assert (Hentry : ∀ i, (i < Z.to_nat k)%nat →
    metrics_py.cumsum (map metrics_py.nan_to_num all) !! i
    = Some (of_Z (positives
                    (take_idx labels (take (S i) (reverse (argsort ys))))))).
  { intros i Hi. unfold metrics_py.cumsum.
    rewrite lookup_cumsum_from by (rewrite length_map; lia).
    rewrite <- fmap_take. unfold all, head_ranks.
    rewrite take_take_idx, take_take.
    replace (S i `min` Z.to_nat k)%nat with (S i) by lia.
    set (L := take_idx labels (take (S i) (reverse (argsort ys)))).
    assert (HL : binary L) by (by apply binary_take_idx).
    fold (fsum (map metrics_py.nan_to_num L)).
    rewrite fsum_binary by (intros y Hy; by eapply binary_nan_to_num).
    by rewrite positives_nan_to_num. }
  eexists. split; [apply reverse_argsort_is_ranking|].
  split; [reflexivity|]. split.
  - intros i Hi. apply lookup_zip_Some. split; [apply lookup_seqZ; lia|].
    by apply Hentry.
  - intros i [ia a] [ib b] Ha Hb.
    apply lookup_zip_Some in Ha as [_ Ha]. apply lookup_zip_Some in Hb as [_ Hb].
    assert (Hi : (S i < Z.to_nat k)%nat).
    { apply lookup_lt_Some in Hb. unfold metrics_py.cumsum in Hb.
      rewrite length_cumsum_from, length_map in Hb. lia. }
    rewrite Hentry in Ha, Hb by lia. injection Ha as <-. injection Hb as <-.
    simpl. apply fle_of_Z.
    rewrite <- !take_take_idx. apply positives_take_mono.
Qed.

Lemma recall_series_monotone_witness :
  ∃ ranks s,
    is_ranking (metrics_py.to_float example_score) ranks
    ∧ metrics_py.recall_series example_true example_score (Some 4) false = Ok s
    ∧ (∀ i, (i < 4)%nat →
         s !! i
         = Some (Z.of_nat i + 1,
                 of_Z (positives
                         (take_idx (map metrics_py.one_minus example_true)
                            (take (S i) ranks)))))
    ∧ (∀ i a b, s !! i = Some a → s !! S i = Some b → fle a.2 b.2 = true).
Proof.
  apply (recall_series_monotone example_true example_score 4 false).
  - simpl. lia.
  - simpl. lia.
  - intros y Hy. unfold example_true in Hy.
    rewrite !elem_of_cons, elem_of_nil in Hy. intuition.
Defined.

(** ** Runs *)

(** X23. [precision] passes [~dropna] for [extrapolate], and the complement
    of a Python [bool] is -2 or -1, never 0: whatever [dropna] is,
    [precision] is [precision_at_k] with extrapolation, at k the number of
    labels. For labels and scores of the same length it returns the
    precision with its bounds and raises nothing. *)
Theorem precision_of_run_extrapolates {Run Args : Type}
    (true_score : Run → Args → list fval * list fval) (run : Run)
    (subset_args : Args) (dropna : bool) (y_true y_score : list fval) :
  true_score run subset_args = (y_true, y_score) →
  metrics_py.precision_of_run true_score run dropna subset_args
  = metrics_py.precision_at_k y_true y_score (Z.of_nat (length y_true)) true true
  ∧ (length y_true = length y_score →
     ∃ p d bounds,
       metrics_py.precision_of_run true_score run dropna subset_args
       = Ok (metrics_py.WithBounds p d bounds)).
Proof.
  intros Hts.
  assert (Heq : metrics_py.precision_of_run true_score run dropna subset_args
    = metrics_py.precision_at_k y_true y_score (Z.of_nat (length y_true)) true true).
  { unfold metrics_py.precision_of_run. rewrite Hts. by destruct dropna. }
  split; [done|]. intros Hlen. rewrite Heq.
  destruct y_true as [|y l].
  - destruct y_score; [|done]. vm_compute. eauto.
  - rewrite precision_at_k_eval_extrapolated by (done || lia). eauto.
Qed.

Lemma precision_of_run_extrapolates_witness :
  metrics_py.precision_of_run (λ _ _ : unit, (example_true, example_score))
    () true ()
  = Ok (metrics_py.WithBounds (Fin (2 # 3)) 3 (Fin (1 # 2), Fin (3 # 4))).
Proof.
  destruct (precision_of_run_extrapolates
              (λ _ _ : unit, (example_true, example_score)) () () true
              example_true example_score eq_refl) as [H _].
  rewrite H. vm_compute. reflexivity.
Defined.

(** X24. [baseline] is 0 for a run without labels; for labels 0 and 1, some
    of them present, it is the number of positives over the number of
    labels that are not missing; and it is missing when every label is. *)
Theorem baseline_cases {Run Args : Type}
    (true_score : Run → Args → list fval * list fval) (run : Run)
    (subset_args : Args) (y_true y_score : list fval) :
  true_score run subset_args = (y_true, y_score) →
  (y_true = [] → metrics_py.baseline true_score run subset_args = of_Z 0)
  ∧ (y_true ≠ [] → binary y_true →
     metrics_py.baseline true_score run subset_args
     = fdiv (of_Z (positives (nonmissing y_true)))
            (of_Z (Z.of_nat (length (nonmissing y_true)))))
  ∧ (y_true ≠ [] → nonmissing y_true = [] →
     metrics_py.baseline true_score run subset_args = NaN).
Proof.
  intros Hts. unfold metrics_py.baseline. rewrite Hts.
  split; [by intros ->|].
  assert (Hpos : y_true ≠ [] → (0 <? length y_true)%nat = true).
  { intros Hne. apply Nat.ltb_lt. destruct y_true; [done|simpl; lia]. }
  unfold metrics_py.count_notnull, metrics_py.nansum.
  rewrite labeled_to_float, count_true_nonmissing. fold (nonmissing y_true). split.
  - intros Hne Hbin. rewrite Hpos by done.
    rewrite fsum_binary; [done|]. intros y Hy. by eapply binary_nonmissing.
  - intros Hne Hnone. rewrite Hpos, Hnone by done. reflexivity.
Qed.

Lemma baseline_cases_witness :
  metrics_py.baseline (λ _ _ : unit, (example_true, example_score)) () ()
  = Fin (2 # 3).
Proof.
  destruct (baseline_cases (λ _ _ : unit, (example_true, example_score)) () ()
              example_true example_score eq_refl) as (_ & H & _).
  rewrite H; [reflexivity|discriminate|].
  intros y Hy. unfold example_true in Hy.
  rewrite !elem_of_cons, elem_of_nil in Hy. intuition.
Defined.

(** ** Time windows, in full *)

Lemma parse_delta_accepts_witness :
  ∃ field, delta_chars !! "M" = Some field
    ∧ parse_delta "12M" = Ok (Some (mkDelta field (int_of_digits "12"))).
Proof.
  apply (parse_delta_accepts "12" "M"%char).
  - discriminate.
  - reflexivity.
  - unfold delta_regex_units. rewrite !elem_of_cons. auto.
Defined.

Lemma parse_delta_inv_witness :
  ∃ digits u field,
    digits ≠ "" ∧ all_digits digits = true ∧ u ∈ delta_regex_units
    ∧ delta_chars !! String u "" = Some field
    ∧ mkDelta "years" 3 = mkDelta field (int_of_digits digits)
    ∧ ("3y" = digits +:+ String u ""
       ∨ "3y" = digits +:+ String u (String newline "")).
Proof. apply (parse_delta_inv "3y" (mkDelta "years" 3)). reflexivity. Defined.

Lemma parse_delta_raise (s : string) (e : exn) :
  parse_delta s = Raise e → e = ValueError ("Invalid delta string: " +:+ s).
Proof.
  unfold parse_delta, delta_regex_findall.
  destruct (String.eqb s "all"); [done|].
  destruct (span is_digit s) as [digits rest].
  destruct digits as [|c ds]; [by intros [= <-]|].
  destruct rest as [|u rest]; [by intros [= <-]|].
  destruct (bool_decide (u ∈ delta_regex_units)) eqn:Hu;
    [|by intros [= <-]].
  apply bool_decide_eq_true in Hu. cbn [andb].
  destruct (at_dollar rest); [|by intros [= <-]].
  destruct (units_have_fields u Hu) as [field ->]. done.
Qed.

(** X10. The outcomes of [parse_delta]: it returns the window without a
    start for the string [all] and for no other string, and it raises
    nothing but the ValueError that quotes its argument, since every unit
    the regular expression lets through has its entry in [delta_chars]. *)
Theorem parse_delta_outcomes (s : string) :
  (parse_delta s = Ok None ↔ s = "all")
  ∧ (∀ e, parse_delta s = Raise e
        → e = ValueError ("Invalid delta string: " +:+ s)).
Proof.
  split; [|apply parse_delta_raise].
  split; [|by intros ->].
  unfold parse_delta. destruct (String.eqb_spec s "all"); [done|].
  destruct (delta_regex_findall s) as [|[digits unit] [|? ?]]; try done.
  by destruct (delta_chars !! unit).
Qed.

Lemma parse_delta_outcomes_witness :
  parse_delta "all" = Ok None
  ∧ ValueError "Invalid delta string: 3x"
    = ValueError ("Invalid delta string: " +:+ "3x").
Proof.
  split.
  - apply (parse_delta_outcomes "all"). reflexivity.
  - symmetry. apply (parse_delta_outcomes "3x"). reflexivity.
Defined.

(** ** Spacedeltas *)

Lemma mapM_parse_ok strs ds :
  mapM (λ s, d ← parse_delta s; Ok (s, d)) strs = Ok ds →
  ∀ s d, (s, d) ∈ ds ↔ s ∈ strs ∧ parse_delta s = Ok d.
Proof.
  revert ds. induction strs as [|s0 strs IH]; intros ds; simpl.
  - intros [= <-] s d. rewrite !elem_of_nil. tauto.
  - destruct (parse_delta s0) as [d0|] eqn:H0; [|done].
    cbn [mbind result_bind].
    destruct (mapM _ strs) as [ds'|] eqn:Hds; [|done].
    cbn [mbind result_bind]. intros [= <-] s d.
    rewrite !elem_of_cons, (IH ds' eq_refl). split.
    + intros [[= -> ->]|[? ?]]; auto.
    + intros [[->|?] Hd]; [left; congruence|auto].
Qed.

Lemma mapM_parse_total strs :
  (∀ s, s ∈ strs → ∃ d, parse_delta s = Ok d) →
  ∃ ds, mapM (λ s, d ← parse_delta s; Ok (s, d)) strs = Ok ds.
Proof.
  induction strs as [|s0 strs IH]; intros Hall; simpl; [eauto|].
  destruct (Hall s0) as [d0 ->]; [left|]. cbn [mbind result_bind].
  destruct IH as [ds ->]; [intros s Hs; apply Hall; by right|].
  cbn [mbind result_bind]. eauto.
Qed.

Lemma mapM_parse_raise strs s e :
  s ∈ strs → parse_delta s = Raise e →
  ∃ s', s' ∈ strs
    ∧ mapM (λ s, d ← parse_delta s; Ok (s, d)) strs
      = Raise (ValueError ("Invalid delta string: " +:+ s')).
Proof.
  induction strs as [|s0 strs IH]; intros Hs He; simpl.
  - by apply elem_of_nil in Hs.
  - destruct (parse_delta s0) as [d0|e0] eqn:H0; cbn [mbind result_bind].
    + apply elem_of_cons in Hs as [->|Hs]; [congruence|].
      destruct (IH Hs He) as (s' & Hs' & ->). cbn [mbind result_bind].
      exists s'. split; [by right|done].
    + apply parse_delta_raise in H0 as ->. exists s0. split; [left|done].
Qed.

(** X11. [Spacedeltas] parses each of its delta strings. When all of them
    parse, it keeps the spatial index and maps exactly the given strings,
    each to its window; when one of them does not, the construction raises
    the ValueError of [parse_delta] for one of the strings. *)
Theorem Spacedeltas_init_spec (spatial_index_ : index_arg)
    (delta_strings : list string) :
  ((∀ s, s ∈ delta_strings → ∃ d, parse_delta s = Ok d) →
   ∃ sd, Spacedeltas_init spatial_index_ delta_strings = Ok sd
     ∧ spatial_index sd = spatial_index_
     ∧ ∀ s d, deltas sd !! s = Some d
              ↔ s ∈ delta_strings ∧ parse_delta s = Ok d)
  ∧ (∀ s e, s ∈ delta_strings → parse_delta s = Raise e →
     ∃ s', s' ∈ delta_strings
       ∧ Spacedeltas_init spatial_index_ delta_strings
         = Raise (ValueError ("Invalid delta string: " +:+ s'))).
Proof.
  unfold Spacedeltas_init. split.
  - intros Hall. destruct (mapM_parse_total _ Hall) as [ds Hds].
    rewrite Hds. cbn [mbind result_bind]. eexists. split; [reflexivity|].
    split; [done|]. intros s d. simpl.
    rewrite <- (mapM_parse_ok _ _ Hds). split.
    + apply elem_of_list_to_map_2.
    + intros Hin. apply elem_of_list_to_map_1'; [|done].
      intros d' Hin'. apply (mapM_parse_ok _ _ Hds) in Hin as [_ H1].
      apply (mapM_parse_ok _ _ Hds) in Hin' as [_ H2]. congruence.
  - intros s e Hs He. destruct (mapM_parse_raise _ _ _ Hs He) as (s' & Hs' & ->).
    eauto.
Qed.

Lemma Spacedeltas_init_spec_witness :
  (∃ sd, Spacedeltas_init (OneName "tract") ["1y"; "all"] = Ok sd
     ∧ deltas sd !! "all" = Some None)
  ∧ ∃ s', Spacedeltas_init (OneName "tract") ["1y"; "3w"]
          = Raise (ValueError ("Invalid delta string: " +:+ s')).
Proof.
  split.
  - destruct (Spacedeltas_init_spec (OneName "tract") ["1y"; "all"])
      as [Hok _].
    destruct Hok as (sd & Hsd & _ & Hd).
    { intros s Hs. rewrite !elem_of_cons, elem_of_nil in Hs.
      destruct Hs as [->|[->|[]]]; vm_compute; eauto. }
    exists sd. split; [exact Hsd|]. apply Hd. split; [|reflexivity].
    rewrite !elem_of_cons. auto.
  - destruct (Spacedeltas_init_spec (OneName "tract") ["1y"; "3w"])
      as [_ Hraise].
    destruct (Hraise "3w" (ValueError "Invalid delta string: 3w"))
      as (s' & _ & Hs'); [rewrite !elem_of_cons; auto|reflexivity|].
    exists s'. exact Hs'.
Defined.

(** ** Column names, in full *)

Lemma span_no_underscore (s a b : string) :
  span not_underscore s = (a, b) → no_underscore a = true.
Proof.
  revert a b. induction s as [|c s IH]; intros a b; cbn [span].
  - by intros [= <- <-].
  - destruct (not_underscore c) eqn:Hc; [|by intros [= <- <-]].
    destruct (span not_underscore s) as [a' b']. intros [= <- <-].
    simpl. rewrite Hc. by eapply IH.
Qed.

Lemma prefix_field_inv (s f rest : string) :
  prefix_field s = Some (f, rest) →
  ∃ w, w ≠ "" ∧ no_underscore w = true
     ∧ f = w +:+ "_" ∧ s = w +:+ "_" +:+ rest.
Proof.
  unfold prefix_field.
  destruct (span not_underscore s) as [w r] eqn:Hspan.
  pose proof (span_app _ _ _ _ Hspan) as Hs.
  pose proof (span_no_underscore _ _ _ Hspan) as Hw.
  destruct w as [|c w]; [done|]. destruct r as [|u r]; [done|].
  destruct (Ascii.eqb_spec u "_") as [->|]; [|done].
  intros [= <- <-]. exists (String c w). done.
Qed.

(** X12. A prefix that [get_spacetime_prefix] returns is the start of the
    column name: the column is the panel column of a prefix, a space and
    a delta that are not empty and hold no underscore, with what follows
    as the metric, and the result is these three, each followed by an
    underscore. Parsing the result again returns it unchanged. *)
Theorem get_spacetime_prefix_inv (column p : string) :
  get_spacetime_prefix column = Ok p →
  (∃ prefix space delta metric,
     prefix ≠ "" ∧ space ≠ "" ∧ delta ≠ ""
     ∧ no_underscore prefix = true ∧ no_underscore space = true
     ∧ no_underscore delta = true
     ∧ column = panel_column prefix space delta metric
     ∧ p = prefix +:+ "_" +:+ space +:+ "_" +:+ delta +:+ "_")
  ∧ get_spacetime_prefix p = Ok p.
Proof.
  unfold get_spacetime_prefix at 1, spacetime_prefix_regex_findall.
  destruct (prefix_field column) as [[f1 r1]|] eqn:H1; [|done].
  destruct (prefix_field r1) as [[f2 r2]|] eqn:H2; [|done].
  destruct (prefix_field r2) as [[f3 r3]|] eqn:H3; [|done].
  intros [= <-].
  apply prefix_field_inv in H1 as (w1 & Hn1 & Hu1 & -> & ->).
  apply prefix_field_inv in H2 as (w2 & Hn2 & Hu2 & -> & ->).
  apply prefix_field_inv in H3 as (w3 & Hn3 & Hu3 & -> & ->).
  assert (Hp : (w1 +:+ "_") +:+ (w2 +:+ "_") +:+ w3 +:+ "_"
               = w1 +:+ "_" +:+ w2 +:+ "_" +:+ w3 +:+ "_").
  { by rewrite !append_assoc. }
  split.
  - exists w1, w2, w3, r3. by rewrite Hp.
  - rewrite Hp. unfold get_spacetime_prefix, spacetime_prefix_regex_findall.
    rewrite (prefix_field_field w1) by done.
    rewrite (prefix_field_field w2) by done.
    change (w3 +:+ "_") with (w3 +:+ "_" +:+ "").
    rewrite (prefix_field_field w3) by done. cbn [fst]. f_equal.
    by rewrite !append_assoc.
Qed.

Lemma get_spacetime_prefix_inv_witness :
  get_spacetime_prefix "tests_tract_3y_" = Ok "tests_tract_3y_".
Proof.
  apply (get_spacetime_prefix_inv "tests_tract_3y_count_x" "tests_tract_3y_").
  reflexivity.
Defined.

(** ** Groups *)

Lemma feqb_sym x y : feqb x y = feqb y x.
Proof.
  destruct x as [a| | |], y as [b| | |]; try done. simpl.
  apply eq_true_iff_eq. rewrite !Qeq_bool_iff. split; intros H; by symmetry.
Qed.

Lemma feqb_trans x y z : feqb x y = true → feqb y z = true → feqb x z = true.
Proof.
  destruct x as [a| | |], y as [b| | |], z as [c| | |]; try done. simpl.
  rewrite !Qeq_bool_iff. intros H1 H2. by rewrite H1.
Qed.

Lemma feqb_refl x : isnan x = false → feqb x x = true.
Proof. destruct x as [a| | |]; try done. intros _. by apply Qeq_bool_iff. Qed.

Lemma key_eqb_sym a b : key_eqb a b = key_eqb b a.
Proof.
  revert b. induction a as [|x a IH]; intros [|y b]; try done. simpl.
  by rewrite feqb_sym, IH.
Qed.

Lemma key_eqb_trans a b c :
  key_eqb a b = true → key_eqb b c = true → key_eqb a c = true.
Proof.
  revert b c. induction a as [|x a IH]; intros [|y b] [|z c]; try done. simpl.
  intros [H1 H2]%andb_prop [H3 H4]%andb_prop.
  rewrite (feqb_trans _ _ _ H1 H3). by rewrite (IH _ _ H2 H4).
Qed.

Lemma key_eqb_refl a : existsb isnan a = false → key_eqb a a = true.
Proof.
  induction a as [|x a IH]; [done|]. simpl.
  intros [Hx Ha]%orb_false_elim. by rewrite feqb_refl, IH.
Qed.

Lemma filter_elem_of {A} (f : A → bool) (l : list A) x :
  x ∈ List.filter f l ↔ x ∈ l ∧ f x = true.
Proof. rewrite !list_elem_of_In. apply filter_In. Qed.

Lemma distinct_elem_of keys g : g ∈ distinct keys → g ∈ keys.
Proof.
  induction keys as [|k keys IH]; [done|]. simpl.
  rewrite !elem_of_cons, filter_elem_of. intros [->|[H _]]; auto.
Qed.

Lemma group_keys_elem_of keys g :
  g ∈ group_keys keys → g ∈ keys ∧ existsb isnan g = false.
Proof.
  unfold group_keys. rewrite merge_sort_Permutation. intros Hg.
  apply distinct_elem_of, filter_elem_of in Hg as [Hin Hnan].
  split; [done|]. by destruct (existsb isnan g).
Qed.

Lemma filter_filter_length {A} (p q : A → bool) (l : list A) :
  (∀ x, x ∈ l → p x = true → q x = true) →
  length (List.filter p (List.filter q l)) = length (List.filter p l).
Proof.
  induction l as [|x l IH]; intros H; [done|]. simpl.
  assert (Hl : ∀ y, y ∈ l → p y = true → q y = true).
  { intros y Hy. apply H. by right. }
  destruct (q x) eqn:Hq; simpl.
  - destruct (p x); simpl; rewrite IH; done.
  - destruct (p x) eqn:Hp; [|by apply IH].
    rewrite H in Hq; [done|left|done].
Qed.

Lemma filter_none {A} (f : A → bool) (l : list A) :
  (∀ x, x ∈ l → f x = false) → List.filter f l = [].
Proof.
  induction l as [|x l IH]; intros H; [done|]. simpl.
  rewrite (H x) by left. apply IH. intros y Hy. apply H. by right.
Qed.

Lemma distinct_count keys k :
  length (List.filter (λ g, key_eqb g k) (distinct keys))
  = if existsb (λ g, key_eqb g k) keys then 1%nat else 0%nat.
Proof.
  induction keys as [|x keys IH]; [done|]. cbn [distinct existsb List.filter].
  destruct (key_eqb x k) eqn:Hx; cbn [orb length].
  - rewrite filter_none; [done|]. intros g Hg.
    apply filter_elem_of in Hg as [_ Hxg].
    destruct (key_eqb g k) eqn:Hgk; [|done].
    rewrite key_eqb_sym in Hgk.
    by rewrite (key_eqb_trans _ _ _ Hx Hgk) in Hxg.
  - rewrite filter_filter_length; [done|].
    intros g _ Hgk. destruct (key_eqb x g) eqn:Hxg; [|done].
    by rewrite (key_eqb_trans _ _ _ Hxg Hgk) in Hx.
Qed.

(** X6. The groups of [groupby]: a group key is the key of a row and has
    no missing value, and a row whose key has no missing value has its
    key in exactly one group. *)
Theorem group_keys_partition (keys : list (list fval)) :
  (∀ g, g ∈ group_keys keys → g ∈ keys ∧ existsb isnan g = false)
  ∧ (∀ k, k ∈ keys → existsb isnan k = false →
       length (List.filter (λ g, key_eqb g k) (group_keys keys)) = 1%nat).
Proof.
  split; [apply group_keys_elem_of|].
  intros k Hk Hnan. unfold group_keys.
  rewrite (filter_perm_length _ _ _ (merge_sort_Permutation _ _)).
  rewrite distinct_count.
  destruct (existsb (λ g, key_eqb g k) _) eqn:Hex; [done|].
  assert (Hin : k ∈ List.filter (λ k, negb (existsb isnan k)) keys).
  { apply filter_elem_of. split; [done|]. simpl. by rewrite Hnan. }
  apply list_elem_of_In in Hin.
  apply not_true_iff_false in Hex. exfalso. apply Hex, existsb_exists.
  exists k. split; [done|]. by apply key_eqb_refl.
Qed.

Lemma group_keys_partition_witness :
  length (List.filter (λ g, key_eqb g [of_Z 7])
            (group_keys [[of_Z 7]; [of_Z 3]; [of_Z 7]])) = 1%nat.
Proof.
  apply (group_keys_partition [[of_Z 7]; [of_Z 3]; [of_Z 7]]).
  - rewrite !elem_of_cons. auto.
  - reflexivity.
Defined.

(** ** Aggregation, in full *)

Lemma aggregate_without_index_rows_witness :
  index (mkDF [[of_Z 0]; [of_Z 1]] [("m", [Fin (1 # 2); PInf])])
  = index two_rows.
Proof.
  apply (aggregate_without_index_rows two_rows ratio_spec None).
  vm_compute. reflexivity.
Defined.

Lemma assoc_set_fresh name v cols :
  name ∉ cols.*1 → assoc_set name v cols = cols ++ [(name, v)].
Proof.
  induction cols as [|[c w] cols IH]; intros Hnot; simpl; [done|].
  apply not_elem_of_cons in Hnot as [Hne Hnot]. simpl in Hne.
  destruct (String.eqb_spec c name); [congruence|]. by rewrite IH.
Qed.

Lemma foldM_collect_columns df3 l df4 out :
  foldM (collect_one df3) df4 l = Ok out →
  NoDup l.*1 → (∀ c, c ∈ l.*1 → c ∉ (columns df4).*1) →
  (columns out).*1 = (columns df4).*1 ++ l.*1
  ∧ ((∀ c v, (c, v) ∈ columns df4 → length v = length (index df4)) →
     ∀ c v, (c, v) ∈ columns out → length v = length (index df4)).
Proof.
  revert df4. induction l as [|[c a] l IH]; intros df4 Hf Hnd Hfresh;
    cbn [foldM] in Hf.
  - injection Hf as <-. by rewrite app_nil_r.
  - apply NoDup_cons in Hnd as [Hc Hnd]. simpl in Hc.
    destruct (collect_one df3 df4 (c, a)) as [df4'|] eqn:Hone; [|done].
    cbn [mbind result_bind] in Hf.
    apply collect_one_inv in Hone as [v ->].
    assert (Hcols : columns (setitem df4 c v)
      = columns df4 ++ [(c, align (length (index df4)) v)]).
    { unfold setitem. simpl. apply assoc_set_fresh. apply Hfresh. left. }
    destruct (IH _ Hf Hnd) as [Hnames Hlens].
    { intros c' Hc'. rewrite Hcols, fmap_app. simpl.
      rewrite elem_of_app, list_elem_of_singleton.
      intros [Hin| ->]; [|done]. revert Hin. apply Hfresh. by right. }
    split.
    + rewrite Hnames, Hcols, fmap_app. simpl. by rewrite <- app_assoc.
    + intros Hall. apply Hlens. intros c' v'. rewrite Hcols, elem_of_app.
      rewrite list_elem_of_singleton. intros [Hin|[= -> ->]].
      * by apply (Hall c').
      * apply length_align.
Qed.

(** X4. When [aggregate] returns, its result has one column for each
    metric of the specification, named as the metric, in the order in
    which the specification is traversed, and each column has one value
    for each row of the result. *)
Theorem aggregate_columns (df : DataFrame) (columns_ : gmap string agg)
    (weight : option operand) (index_ : option index_arg) (out : DataFrame) :
  aggregate df columns_ weight index_ = Ok out →
  (columns out).*1 = (map_to_list columns_).*1
  ∧ ∀ c v, (c, v) ∈ columns out → length v = length (index out).
Proof.
  unfold aggregate.
  destruct (components df columns_ weight index_) as [df3|]; [|done].
  cbn [mbind result_bind]. unfold collect. intros Hc.
  pose proof (foldM_collect_index _ _ _ _ Hc) as Hidx.
  destruct (foldM_collect_columns _ _ _ _ Hc) as [Hnames Hlens].
  - apply NoDup_fst_map_to_list.
  - intros c _. simpl. apply not_elem_of_nil.
  - split; [done|]. rewrite Hidx. apply Hlens.
    intros c v Hin. simpl in Hin. by apply elem_of_nil in Hin.
Qed.

Lemma aggregate_columns_witness :
  (columns (mkDF [[of_Z 7]] [("m", [PInf])])).*1 = (map_to_list ratio_spec).*1.
Proof.
  apply (aggregate_columns zero_weights ratio_spec None (Some (OneName "g"))).
  vm_compute. reflexivity.
Defined.

(** *** References that do not resolve *)

Lemma assoc_set_names name v cols :
  name ∈ cols.*1 → (assoc_set name v cols).*1 = cols.*1.
Proof.
  induction cols as [|[c w] cols IH]; simpl.
  - intros H. by apply elem_of_nil in H.
  - intros H. destruct (String.eqb_spec c name); [done|]. simpl. f_equal.
    apply IH. apply elem_of_cons in H as [?|?]; [congruence|done].
Qed.

Lemma has_column_names df df' name :
  (columns df').*1 = (columns df).*1 → has_column df' name = has_column df name.
Proof. unfold has_column. by intros ->. Qed.

Lemma weigh_names df a x weight df' x' :
  (∀ s, a = Some (Name s) → has_column df s = true) →
  weigh df a x weight = (df', x') → (columns df').*1 = (columns df).*1.
Proof.
  intros Ha. unfold weigh. destruct weight as [w|]; [|by intros [= <- _]].
  destruct a as [[f|s|v]|]; try by intros [= <- _].
  intros [= <- _]. unfold setitem. simpl. apply assoc_set_names.
  specialize (Ha s eq_refl). by apply bool_decide_eq_true in Ha.
Qed.

Lemma series_cases df a :
  (∃ x, __series df a = Ok x
      ∧ ∀ s, a = Name s → has_column df s = true)
  ∨ (∃ s, a = Name s ∧ has_column df s = false
        ∧ __series df a = Raise (ValueError ("Invalid attribute for series: " +:+ s)))
  ∨ (∃ v, a = Value (Ser v)
        ∧ __series df a = Raise (TypeError unhashable_series)).
Proof.
  destruct a as [f|s|[v|x]]; simpl.
  - left. eexists. split; [done|]. intros s [=].
  - destruct (has_column df s) eqn:Hs.
    + left. unfold has_column in Hs. apply bool_decide_eq_true in Hs.
      apply assoc_is_Some in Hs as [v Hv]. unfold getitem. rewrite Hv.
      eexists. split; [done|]. intros s' [= <-].
      apply bool_decide_eq_true. apply assoc_is_Some. eauto.
    + right. left. eauto.
  - right. right. eauto.
  - left. eexists. split; [done|]. intros s [=].
Qed.

Lemma generate_one_cases weight st c a :
  (∃ st', generate_one weight st (c, a) = Ok st'
        ∧ (columns (gen_df st')).*1 = (columns (gen_df st)).*1
        ∧ ¬ unresolved (gen_df st) a)
  ∨ (∃ e, generate_one weight st (c, a) = Raise e
        ∧ invalid_attribute (gen_df st) e)
  ∨ (generate_one weight st (c, a) = Raise (TypeError unhashable_series)
     ∧ holds_series a).
Proof.
  unfold generate_one.
  set (df := gen_df st).
  set (num := match numerator a with
              | Some n => __series df n
              | None => Ok (Ser (replicate (length (index df)) (of_Z 1)))
              end).
  assert (Hnum : (∃ x, num = Ok x
                     ∧ ∀ s, numerator a = Some (Name s) → has_column df s = true)
                 ∨ (∃ s, numerator a = Some (Name s) ∧ has_column df s = false
                       ∧ num = Raise (ValueError ("Invalid attribute for series: " +:+ s)))
                 ∨ (∃ v, numerator a = Some (Value (Ser v))
                       ∧ num = Raise (TypeError unhashable_series))).
  { unfold num. destruct (numerator a) as [n|].
    - destruct (series_cases df n)
        as [(x & Hx & Hs)|[(s & -> & Hs & Hx)|(v & -> & Hx)]].
      + left. exists x. split; [done|]. intros s [= ->]. by apply Hs.
      + right. left. eauto.
      + right. right. eauto.
    - left. eexists. split; [done|]. intros s [=]. }
  destruct Hnum as [(x & -> & Hns)|[(s & Hn & Hs & ->)|(v & Hn & ->)]].
  2:{ right. left. eexists. split; [done|]. exists s. done. }
  2:{ right. right. split; [done|]. exists v. by left. }
  cbn [mbind result_bind].
  destruct (weigh df (numerator a) x weight) as [df1 x1] eqn:Hw1.
  pose proof (weigh_names _ _ _ _ _ _ Hns Hw1) as Hn1.
  destruct (denominator a) as [d|] eqn:Hd.
  - destruct (series_cases df1 d)
      as [(y & Hy & Hds)|[(s & -> & Hs & Hy)|(v & -> & Hy)]].
    + rewrite Hy. cbn [mbind result_bind].
      destruct (weigh df1 (Some d) y weight) as [df2 y2] eqn:Hw2.
      left. eexists. split; [done|]. simpl.
      assert (Hn2 : (columns df2).*1 = (columns df1).*1).
      { eapply weigh_names; [|done]. intros s [= ->]. by apply Hds. }
      split; [congruence|].
      intros (s & [Hs|Hs] & Habs).
      * rewrite (Hns s Hs) in Habs. done.
      * rewrite Hd in Hs. injection Hs as ->.
        rewrite <- (has_column_names df df1) in Habs by done.
        rewrite (Hds s eq_refl) in Habs. done.
    + rewrite Hy. right. left. eexists. split; [done|]. exists s.
      split; [done|]. by rewrite <- (has_column_names df df1).
    + rewrite Hy. right. right. split; [done|]. exists v. by right.
  - left. eexists. split; [done|]. simpl. split; [done|].
    intros (s & [Hs|Hs] & Habs); [|congruence].
    rewrite (Hns s Hs) in Habs. done.
Qed.

Lemma foldM_generate_unresolved weight l st c a :
  (c, a) ∈ l → unresolved (gen_df st) a →
  (∃ e, foldM (generate_one weight) st l = Raise e
      ∧ invalid_attribute (gen_df st) e)
  ∨ (foldM (generate_one weight) st l = Raise (TypeError unhashable_series)
     ∧ ∃ e, e ∈ l ∧ holds_series e.2).
Proof.
  revert st. induction l as [|[c' a'] l IH]; intros st Hin Hun; cbn [foldM].
  - by apply elem_of_nil in Hin.
  - destruct (generate_one_cases weight st c' a')
      as [(st' & -> & Hnames & Hres)|[(e & -> & He)|[-> Hser]]].
    + cbn [mbind result_bind].
      apply elem_of_cons in Hin as [[= <- <-]|Hin]; [done|].
      destruct (IH st' Hin) as [(e & -> & s & -> & Hs)|(-> & e & He & Hser)].
      { destruct Hun as (s & Hs & Habs). exists s. split; [done|].
        by rewrite (has_column_names (gen_df st) (gen_df st')). }
      * left. eexists. split; [done|]. exists s. split; [done|].
        by rewrite <- (has_column_names (gen_df st) (gen_df st')).
      * right. split; [done|]. exists e. split; [by right|done].
    + left. eauto.
    + right. split; [done|]. exists (c', a'). split; [left|done].
Qed.

Lemma select_columns_total df names :
  (∀ n, n ∈ names → has_column df n = true) →
  ∃ cols, select_columns df names = Ok cols.
Proof.
  induction names as [|n names IH]; intros Hall; simpl; [eauto|].
  assert (Hn : has_column df n = true) by (apply Hall; left).
  apply bool_decide_eq_true, assoc_is_Some in Hn as [v Hv].
  unfold getitem at 1. rewrite Hv. cbn [mbind result_bind].
  destruct IH as [cols ->]; [intros m Hm; apply Hall; by right|].
  cbn [mbind result_bind]. eauto.
Qed.

(** X5. When the numerator or the denominator of a metric of the
    specification names a column that the table does not have, and the
    columns of the index are columns of the table, [aggregate] raises and
    nothing is aggregated. It raises the ValueError of an invalid
    attribute, for a name that is not a column of the table, unless a
    metric of the specification holds a Series: the test of line 68 on a
    Series raises a TypeError, which may come first. *)
Theorem aggregate_unresolved (df : DataFrame) (columns_ : gmap string agg)
    (weight : option operand) (index_ : option index_arg)
    (c : string) (a : agg) :
  columns_ !! c = Some a → unresolved df a →
  (∀ ix n, index_ = Some ix → n ∈ index_names ix → has_column df n = true) →
  (∃ s, aggregate df columns_ weight index_
        = Raise (ValueError ("Invalid attribute for series: " +:+ s))
      ∧ has_column df s = false)
  ∨ (aggregate df columns_ weight index_
     = Raise (TypeError unhashable_series)
     ∧ ∃ c' a', columns_ !! c' = Some a' ∧ holds_series a').
Proof.
  intros Hc Hun Hix. unfold aggregate, components.
  assert (∃ df2, match index_ with
                 | Some ix => mkDF (index df) <$> select_columns df (index_names ix)
                 | None => Ok (mkDF (index df) [])
                 end = Ok df2) as [df2 ->].
  { destruct index_ as [ix|]; [|eauto].
    destruct (select_columns_total df (index_names ix)) as [cols ->]; [|by eauto].
    intros n Hn. by eapply Hix. }
  cbn [mbind result_bind].
  destruct (foldM_generate_unresolved weight (map_to_list columns_)
              (mkGen df df2 ∅) c a)
    as [(e & -> & s & -> & Hs)|(-> & [c' a'] & Hin & Hser)].
  - by apply elem_of_map_to_list.
  - done.
  - left. cbn [mbind result_bind]. eauto.
  - right. cbn [mbind result_bind]. split; [done|].
    exists c', a'. split; [by apply elem_of_map_to_list|done].
Qed.

Lemma aggregate_unresolved_witness :
  (∃ s, aggregate two_rows
          {[ "m" := mkAgg (Some (Name "x")) (Some (Name "z")) None None ]}
          None None
        = Raise (ValueError ("Invalid attribute for series: " +:+ s))
      ∧ has_column two_rows s = false)
  ∨ (aggregate two_rows
       {[ "m" := mkAgg (Some (Name "x")) (Some (Name "z")) None None ]}
       None None
     = Raise (TypeError unhashable_series)
     ∧ ∃ c' a',
         ({[ "m" := mkAgg (Some (Name "x")) (Some (Name "z")) None None ]}
            : gmap string agg) !! c' = Some a'
         ∧ holds_series a').
Proof.
  apply (aggregate_unresolved two_rows _ None None "m"
           (mkAgg (Some (Name "x")) (Some (Name "z")) None None)).
  - reflexivity.
  - exists "z". split; [by right|reflexivity].
  - intros ix n [=].
Defined.

(** *** Counting the rows of a group *)

Lemma length_transpose n cols : length (transpose n cols) = n.
Proof. revert cols. induction n as [|n IH]; intros cols; simpl; [done|]. by rewrite IH. Qed.

Lemma take_mask_replicate (mask : list bool) (x : fval) :
  take_mask mask (replicate (length mask) x)
  = replicate (length (List.filter id mask)) x.
Proof.
  induction mask as [|m mask IH]; [done|]. simpl.
  destruct m; simpl; by rewrite IH.
Qed.

Lemma length_filter_id_map {A} (f : A → bool) (l : list A) :
  length (List.filter id (map f l)) = length (List.filter f l).
Proof. induction l as [|x l IH]; [done|]. simpl. destruct (f x); simpl; lia. Qed.

Lemma fsum_replicate_one n : fsum (replicate n (of_Z 1)) = of_Z (Z.of_nat n).
Proof.
  rewrite fsum_binary.
  - f_equal. unfold positives. f_equal.
    induction n as [|n IH]; [done|]. simpl. by rewrite IH.
  - intros y Hy. apply elem_of_replicate in Hy as [-> _]. auto.
Qed.

Lemma apply_func_sum_ones n :
  apply_func Sum (replicate n (of_Z 1)) = of_Z (Z.of_nat n).
Proof.
  unfold apply_func.
  assert (Hp : List.filter (λ x, negb (isnan x)) (replicate n (of_Z 1))
               = replicate n (of_Z 1)).
  { apply forallb_filter_id, forallb_forall. intros x Hx.
    apply list_elem_of_In, elem_of_replicate in Hx as [-> _]. done. }
  rewrite Hp. apply fsum_replicate_one.
Qed.

Lemma groupby_agg_keys df names agg_dict :
  names ≠ [] →
  groupby_agg df names agg_dict
  = (by_cols ← select_columns df names;
     let keys := transpose (length (index df)) by_cols.*2 in
     let groups := group_keys keys in
     cols ← mapM (λ '(name, f),
               v ← getitem df name;
               Ok (name, map (λ g, apply_func f (take_mask (map (key_eqb g) keys) v))
                             groups))
             (map_to_list agg_dict);
     Ok (mkDF groups cols)).
Proof.
  intros Hne. unfold groupby_agg. by rewrite bool_decide_eq_false_2.
Qed.

Lemma select_columns_assoc df names cols name :
  select_columns df names = Ok cols → name ∈ names →
  assoc name cols = assoc name (columns df).
Proof.
  revert cols. induction names as [|n names IH]; intros cols; simpl.
  - intros _ H. by apply elem_of_nil in H.
  - unfold getitem at 1. destruct (assoc n (columns df)) as [v|] eqn:Hv; [|done].
    cbn [mbind result_bind].
    destruct (select_columns df names) as [rest|]; [|done].
    cbn [mbind result_bind]. intros [= <-] Hin. simpl.
    destruct (String.eqb_spec n name) as [->|Hne]; [done|].
    apply IH; [done|]. apply elem_of_cons in Hin as [?|?]; [congruence|done].
Qed.

Lemma select_columns_ext df df' names :
  (∀ n, n ∈ names → getitem df' n = getitem df n) →
  select_columns df' names = select_columns df names.
Proof.
  induction names as [|n names IH]; intros H; simpl; [done|].
  rewrite (H n) by left. rewrite IH; [done|].
  intros m Hm. apply H. by right.
Qed.

(** X3. Counting rows: for a specification of one metric without a
    numerator, a denominator or a function, and an index of one column of
    the table or more (none of them named as the numerator of the
    metric), [aggregate] returns one row for each group, in the order of
    the groups, and the metric of a group is the number of rows of the
    table whose key is the key of the group. *)
Theorem aggregate_counts_rows (df : DataFrame) (m : string) (ix : index_arg)
    (by_cols : list (string * list fval)) :
  index_names ix ≠ [] →
  select_columns df (index_names ix) = Ok by_cols →
  m +:+ "_numerator" ∉ index_names ix →
  let keys := transpose (length (index df)) by_cols.*2 in
  let groups := group_keys keys in
  aggregate df {[ m := mkAgg None None None None ]} None (Some ix)
  = Ok (mkDF groups [(m, map (λ g, of_Z (group_size g keys)) groups)]).
Proof.
  intros Hix Hsel Hfresh keys groups.
  unfold aggregate, components. rewrite Hsel.
  cbn [fmap result_fmap mbind result_bind].
  rewrite map_to_list_singleton. cbn [foldM].
  unfold generate_one. cbn [numerator denominator func gen_df gen_df2
    gen_agg_dict weigh mbind result_bind default].
  unfold assign. cbn [index broadcast].
  set (ones := replicate (length (index df)) (of_Z 1)).
  set (df2 := setitem (mkDF (index df) by_cols) (m +:+ "_numerator") ones).
  rewrite groupby_agg_keys by done.
  assert (Hsel2 : select_columns df2 (index_names ix) = Ok by_cols).
  { rewrite <- Hsel. apply select_columns_ext. intros n Hn.
    unfold df2. rewrite getitem_setitem_ne by (by intros <-).
    unfold getitem. simpl. by rewrite (select_columns_assoc _ _ _ _ Hsel Hn). }
  rewrite Hsel2. cbn [mbind result_bind].
  rewrite insert_empty, map_to_list_singleton. cbn [mapM].
  assert (Hget : getitem df2 (m +:+ "_numerator") = Ok ones).
  { unfold df2. rewrite getitem_setitem_eq. f_equal.
    apply align_same. unfold ones. apply length_replicate. }
  assert (Hidx : index df2 = index df) by done.
  rewrite Hget, Hidx. cbn [mbind result_bind mret result_ret].
  fold keys. fold groups.
  unfold collect. rewrite map_to_list_singleton. cbn [foldM].
  unfold collect_one. cbn [denominator].
  unfold getitem. cbn [columns assoc]. rewrite String.eqb_refl.
  cbn [mbind result_bind index]. unfold setitem. cbn [index columns assoc_set].
  rewrite align_same by (by rewrite length_map).
  do 4 f_equal. apply map_ext_in. intros g Hg. apply list_elem_of_In in Hg.
  unfold ones. rewrite <- (length_transpose (length (index df)) by_cols.*2).
  fold keys. rewrite <- (length_map (key_eqb g) keys).
  rewrite take_mask_replicate, length_filter_id_map.
  unfold group_size. apply apply_func_sum_ones.
Qed.

Lemma aggregate_counts_rows_witness :
  aggregate
    (mkDF [[of_Z 0]; [of_Z 1]; [of_Z 2]]
          [("g", [of_Z 5; of_Z 5; of_Z 3])])
    {[ "n" := mkAgg None None None None ]} None (Some (OneName "g"))
  = Ok (mkDF [[of_Z 3]; [of_Z 5]] [("n", [of_Z 1; of_Z 2])]).
Proof.
  apply (aggregate_counts_rows
           (mkDF [[of_Z 0]; [of_Z 1]; [of_Z 2]]
                 [("g", [of_Z 5; of_Z 5; of_Z 3])])
           "n" (OneName "g") [("g", [of_Z 5; of_Z 5; of_Z 3])]).
  - discriminate.
  - reflexivity.
  - simpl. rewrite list_elem_of_singleton. discriminate.
Defined.

(** ** Censoring, in full *)

Lemma censor_mask {D} (minus : fval → D → fval) df date_column end_date delta
    dates :
  getitem df date_column = Ok dates →
  censor minus df date_column end_date delta
  = Ok (select_mask df (map (in_window minus end_date delta) dates)).
Proof.
  intros Hdates. unfold censor. rewrite Hdates. cbn [mbind result_bind].
  destruct delta as [delta|]; [|done].
  rewrite (getitem_select_mask _ _ _ _ Hdates). cbn [mbind result_bind].
  rewrite take_mask_map. by rewrite select_mask_compose.
Qed.

Lemma take_mask_sublist {A} (mask : list bool) (l : list A) :
  take_mask mask l `sublist_of` l.
Proof.
  revert l. induction mask as [|m mask IH]; intros [|x l]; simpl;
    try apply sublist_nil_l.
  destruct m; [by apply sublist_skip|by apply sublist_cons].
Qed.

Lemma select_mask_names df mask :
  (columns (select_mask df mask)).*1 = (columns df).*1.
Proof.
  unfold select_mask. simpl. rewrite <- list_fmap_compose.
  by apply list_fmap_ext.
Qed.

(** X7. For a table that has the date column, [censor] returns a table
    with the same columns whose rows are rows of the table, in their
    order; censoring its result again, with the same end and window,
    changes nothing; and censoring first without a window and then with
    the window is censoring with the window at once. *)
Theorem censor_idempotent {D} (minus : fval → D → fval) (df : DataFrame)
    (date_column : string) (end_date : fval) (delta : option D)
    (dates : list fval) :
  getitem df date_column = Ok dates →
  ∃ out out_all,
    censor minus df date_column end_date delta = Ok out
    ∧ (columns out).*1 = (columns df).*1
    ∧ index out `sublist_of` index df
    ∧ censor minus out date_column end_date delta = Ok out
    ∧ censor minus df date_column end_date None = Ok out_all
    ∧ censor minus out_all date_column end_date delta = Ok out.
Proof.
  intros Hdates.
  set (keep := in_window minus end_date delta).
  set (before := in_window minus end_date (@None D)).
  exists (select_mask df (map keep dates)), (select_mask df (map before dates)).
  split; [by apply censor_mask|].
  split; [apply select_mask_names|].
  split; [apply take_mask_sublist|].
  split; [|split; [by apply censor_mask|]].
  - rewrite (censor_mask minus _ _ _ _ (List.filter keep dates)).
    2:{ rewrite (getitem_select_mask _ _ _ _ Hdates). by rewrite take_mask_map. }
    fold keep. rewrite select_mask_compose. f_equal. f_equal.
    apply map_ext. intros d. by destruct (keep d).
  - rewrite (censor_mask minus _ _ _ _ (List.filter before dates)).
    2:{ rewrite (getitem_select_mask _ _ _ _ Hdates). by rewrite take_mask_map. }
    fold keep. rewrite select_mask_compose. f_equal. f_equal.
    apply map_ext. intros d. unfold keep, before, in_window.
    destruct delta; [|by destruct (flt d end_date)].
    by destruct (fge _ _), (flt d end_date).
Qed.

Lemma censor_idempotent_witness :
  ∃ out out_all,
    censor fsub events "date" (of_Z 9) (Some (of_Z 4)) = Ok out
    ∧ (columns out).*1 = (columns events).*1
    ∧ index out `sublist_of` index events
    ∧ censor fsub out "date" (of_Z 9) (Some (of_Z 4)) = Ok out
    ∧ censor fsub events "date" (of_Z 9) None = Ok out_all
    ∧ censor fsub out_all "date" (of_Z 9) (Some (of_Z 4)) = Ok out.
Proof.
  apply (censor_idempotent fsub events "date" (of_Z 9) (Some (of_Z 4))
           [of_Z 1; of_Z 5; of_Z 9]).
  reflexivity.
Defined.

(** ** Snapshot files *)

Lemma padded_4 z :
  0 ≤ z < 10000 →
  String.length (zero_pad 4 (pretty z)) = 4%nat
  ∧ int_of_digits (zero_pad 4 (pretty z)) = z.
Proof.
  intros Hz.
  assert (Hall : forallb (padded_ok 4) (seqZ 0 10000) = true)
    by (vm_compute; reflexivity).
  rewrite forallb_forall in Hall.
  specialize (Hall z). unfold padded_ok in Hall.
  rewrite andb_true_iff, Nat.eqb_eq, Z.eqb_eq in Hall. apply Hall.
  apply list_elem_of_In, elem_of_seqZ. lia.
Qed.

Lemma padded_2 z :
  0 ≤ z < 100 →
  String.length (zero_pad 2 (pretty z)) = 2%nat
  ∧ int_of_digits (zero_pad 2 (pretty z)) = z.
Proof.
  intros Hz.
  assert (Hall : forallb (padded_ok 2) (seqZ 0 100) = true)
    by (vm_compute; reflexivity).
  rewrite forallb_forall in Hall.
  specialize (Hall z). unfold padded_ok in Hall.
  rewrite andb_true_iff, Nat.eqb_eq, Z.eqb_eq in Hall. apply Hall.
  apply list_elem_of_In, elem_of_seqZ. lia.
Qed.

Lemma append_eq_length (a1 a2 b1 b2 : string) :
  String.length a1 = String.length a2 →
  a1 +:+ b1 = a2 +:+ b2 → a1 = a2 ∧ b1 = b2.
Proof.
  revert a2. induction a1 as [|c a1 IH]; intros [|c2 a2]; try done.
  rewrite !append_cons. intros [= Hl] [= -> Heq].
  destruct (IH _ Hl Heq) as [-> ->]. done.
Qed.

Lemma length_append (a b : string) :
  String.length (a +:+ b) = (String.length a + String.length b)%nat.
Proof. induction a as [|c a IH]; [done|]. rewrite append_cons. simpl. by rewrite IH. Qed.

Lemma strftime_Ymd_inj (d1 d2 : date) :
  valid_date d1 → valid_date d2 → strftime_Ymd d1 = strftime_Ymd d2 → d1 = d2.
Proof.
  destruct d1 as [[y1 m1] a1], d2 as [[y2 m2] a2].
  unfold valid_date, strftime_Ymd. simpl.
  intros (Hy1 & Hm1 & Ha1) (Hy2 & Hm2 & Ha2) Heq.
  destruct (padded_4 y1) as [Ly1 Vy1]; [lia|].
  destruct (padded_4 y2) as [Ly2 Vy2]; [lia|].
  destruct (padded_2 m1) as [Lm1 Vm1]; [lia|].
  destruct (padded_2 m2) as [Lm2 Vm2]; [lia|].
  destruct (padded_2 a1) as [La1 Va1]; [lia|].
  destruct (padded_2 a2) as [La2 Va2]; [lia|].
  apply append_eq_length in Heq as [Hy Heq]; [|congruence].
  apply append_eq_length in Heq as [Hm Ha]; [|congruence].
  congruence.
Qed.

Lemma strftime_Ymd_length (d : date) :
  valid_date d → String.length (strftime_Ymd d) = 8%nat.
Proof.
  destruct d as [[y m] a]. unfold valid_date, strftime_Ymd. simpl.
  intros (Hy & Hm & Ha).
  destruct (padded_4 y) as [Ly _]; [lia|].
  destruct (padded_2 m) as [Lm _]; [lia|].
  destruct (padded_2 a) as [La _]; [lia|].
  rewrite !length_append. lia.
Qed.

Lemma strftime_Ymd_no_slash (d : date) :
  valid_date d → starts_with_slash (strftime_Ymd d +:+ ".hdf") = false.
Proof.
  destruct d as [[y m] a]. unfold valid_date, strftime_Ymd. simpl.
  intros (Hy & _).
  assert (Hall : forallb (λ z, negb (starts_with_slash (zero_pad 4 (pretty z))))
                   (seqZ 0 10000) = true) by (vm_compute; reflexivity).
  rewrite forallb_forall in Hall. specialize (Hall y).
  destruct (padded_4 y) as [Ly _]; [lia|].
  destruct (zero_pad 4 (pretty y)) as [|c s] eqn:Hz; [done|].
  rewrite !append_cons. simpl.
  assert (H : negb (starts_with_slash (String c s)) = true).
  { apply Hall. apply list_elem_of_In, elem_of_seqZ. lia. }
  simpl in H. by destruct (Ascii.eqb c "/").
Qed.

Lemma path_join_inj (a b1 b2 : string) :
  starts_with_slash b1 = false → starts_with_slash b2 = false →
  path_join a b1 = path_join a b2 → b1 = b2.
Proof.
  unfold path_join. intros -> ->.
  destruct (String.eqb a "" || ends_with_slash a).
  - apply append_inj_l.
  - intros H. by apply append_inj_l, append_inj_l in H.
Qed.

(** X13. The files of an aggregator: [__init__] gives a file to each of
    its dates and to no other date, and two different dates, with years
    from 1900 to 9999, never get the same file. *)
Theorem filenames_distinct (spacedeltas : gmap string Spacedeltas)
    (dates : list date) (prefix basedir : string) :
  ∃ files,
    getattr (SpacetimeAggregator_init spacedeltas dates prefix basedir)
      "filenames" = Ok (VFilenames files)
    ∧ (∀ d, is_Some (files !! d) ↔ d ∈ dates)
    ∧ (∀ d1 d2 f, valid_date d1 → valid_date d2 →
         files !! d1 = Some f → files !! d2 = Some f → d1 = d2).
Proof.
  set (dirname := path_join basedir prefix).
  set (file := λ d : date, path_join dirname (strftime_Ymd d +:+ ".hdf")).
  set (files := list_to_map (map (λ d, (d, file d)) dates) : gmap date string).
  assert (Hfiles : ∀ d f, files !! d = Some f ↔ d ∈ dates ∧ f = file d).
  { intros d f. unfold files. split.
    - intros H. apply elem_of_list_to_map_2 in H.
      apply list_elem_of_fmap in H as (d' & [= -> ->] & Hin). done.
    - intros [Hin ->]. apply elem_of_list_to_map_1'.
      + intros f' H. apply list_elem_of_fmap in H as (d' & [= -> ->] & _). done.
      + apply list_elem_of_fmap. eauto. }
  exists files. split; [|split].
  - unfold getattr, SpacetimeAggregator_init. by rewrite lookup_insert_eq.
  - intros d. split.
    + intros [f Hf]. by apply Hfiles in Hf as [? _].
    + intros Hin. exists (file d). by apply Hfiles.
  - intros d1 d2 f Hv1 Hv2 H1 H2.
    apply Hfiles in H1 as [_ ->]. apply Hfiles in H2 as [_ Heq].
    unfold file in Heq.
    apply path_join_inj in Heq; [|by apply strftime_Ymd_no_slash..].
    apply append_eq_length in Heq as [Heq _].
    + by apply strftime_Ymd_inj.
    + by rewrite !strftime_Ymd_length.
Qed.

Lemma filenames_distinct_witness :
  ∃ files,
    getattr (SpacetimeAggregator_init ∅ [(2012, 1, 1); (2013, 1, 1)]
               "tests" "/data") "filenames" = Ok (VFilenames files)
    ∧ files !! (2013, 1, 1) = Some "/data/tests/20130101.hdf"
    ∧ ∀ d f, valid_date d → files !! d = Some f →
        files !! (2013, 1, 1) = Some f → d = (2013, 1, 1).
Proof.
  destruct (filenames_distinct ∅ [(2012, 1, 1); (2013, 1, 1)] "tests" "/data")
    as (files & Hget & Hdom & Hinj).
  exists files. split; [exact Hget|]. split.
  - vm_compute in Hget. injection Hget as <-. vm_compute. reflexivity.
  - intros d f Hd H1 H2. apply (Hinj d (2013, 1, 1) f); try done.
Defined.

(** *** The ratio of a group *)

Lemma mapM_agg_total (step : string * aggfunc → result (string * list fval)) l :
  (∀ e, e ∈ l → ∃ y, step e = Ok y) → ∃ cols, mapM step l = Ok cols.
Proof.
  induction l as [|e l IH]; intros Hall; simpl; [eauto|].
  destruct (Hall e) as [y ->]; [left|]. cbn [mbind result_bind].
  destruct IH as [cols ->]; [intros e' He'; apply Hall; by right|].
  cbn [mbind result_bind]. eauto.
Qed.

Lemma mapM_agg_assoc (df2 : DataFrame) (value : aggfunc → list fval → list fval)
    l cols name f v :
  mapM (λ '(name, f), v ← getitem df2 name; Ok (name, value f v)) l = Ok cols →
  NoDup l.*1 → (name, f) ∈ l → getitem df2 name = Ok v →
  assoc name cols = Some (value f v).
Proof.
  revert cols. induction l as [|[n0 f0] l IH]; intros cols Hm Hnd Hin Hv.
  - by apply elem_of_nil in Hin.
  - simpl in Hm. apply NoDup_cons in Hnd as [Hn0 Hnd]. simpl in Hn0.
    destruct (getitem df2 n0) as [v0|] eqn:Hv0; [|done].
    cbn [mbind result_bind] in Hm.
    match type of Hm with context [mapM ?s l] =>
      destruct (mapM s l) as [rest|] eqn:Hrest; [|done] end.
    cbn [mbind result_bind] in Hm. injection Hm as <-. simpl.
    apply elem_of_cons in Hin as [[= <- <-]|Hin].
    + rewrite String.eqb_refl. congruence.
    + destruct (String.eqb_spec n0 name) as [->|Hne].
      * exfalso. apply Hn0. apply list_elem_of_fmap. by exists (name, f).
      * by apply (IH rest).
Qed.

Lemma apply_func_sum_missing v :
  (∀ x, x ∈ v → isnan x = true) → apply_func Sum v = of_Z 0.
Proof.
  intros Hall. unfold apply_func. rewrite filter_none; [done|].
  intros x Hx. by rewrite (Hall x Hx).
Qed.

(** X2. The ratio of a metric, group by group: for a specification of one
    metric whose numerator and denominator are columns of the table, no
    weight, and an index of one column of the table or more (none of them
    named as the numerator or the denominator of the metric), [aggregate]
    returns one row for each group, and the metric of a group is the
    function of the metric (the sum by default) of the numerators of the
    rows of the group, over the function of the denominator (that of the
    metric by default) of their denominators. The sum of a group whose
    values are all missing is 0. *)
Theorem aggregate_grouped_ratio (df : DataFrame) (m x w : string)
    (f fd : option aggfunc) (ix : index_arg)
    (by_cols : list (string * list fval)) (xs ws : list fval) :
  index_names ix ≠ [] →
  select_columns df (index_names ix) = Ok by_cols →
  getitem df x = Ok xs → getitem df w = Ok ws →
  length xs = length (index df) → length ws = length (index df) →
  m +:+ "_numerator" ∉ index_names ix →
  m +:+ "_denominator" ∉ index_names ix →
  let keys := transpose (length (index df)) by_cols.*2 in
  let groups := group_keys keys in
  let func_ := default Sum f in
  let denominator_func_ := default func_ fd in
  aggregate df {[ m := mkAgg (Some (Name x)) (Some (Name w)) f fd ]} None
    (Some ix)
  = Ok (mkDF groups
          [(m, map (λ g, fdiv (apply_func func_ (group_values g keys xs))
                              (apply_func denominator_func_
                                 (group_values g keys ws)))
                   groups)]).
Proof.
  intros Hix Hsel Hx Hw Hlx Hlw Hfn Hfd keys groups func_ denominator_func_.
  set (num := m +:+ "_numerator"). set (den := m +:+ "_denominator").
  assert (Hnd : num ≠ den) by apply numerator_ne_denominator.
  unfold aggregate, components. rewrite Hsel.
  cbn [fmap result_fmap mbind result_bind].
  rewrite map_to_list_singleton. cbn [foldM].
  unfold generate_one. cbn [numerator denominator func denominator_func
    gen_df gen_df2 gen_agg_dict weigh __series].
  rewrite (has_column_getitem _ _ _ Hx), (has_column_getitem _ _ _ Hw), Hx, Hw.
  cbn [fmap result_fmap mbind result_bind gen_df2 gen_agg_dict].
  unfold assign. cbn [index broadcast]. fold num den func_ denominator_func_.
  set (df2 := setitem (setitem (mkDF (index df) by_cols) num xs) den ws).
  set (agg_dict := <[den := denominator_func_]> (<[num := func_]> ∅)
                   : gmap string aggfunc).
  assert (Hgn : getitem df2 num = Ok xs).
  { unfold df2. rewrite getitem_setitem_ne, getitem_setitem_eq by done.
    f_equal. by apply align_same. }
  assert (Hgd : getitem df2 den = Ok ws).
  { unfold df2. rewrite getitem_setitem_eq. f_equal. by apply align_same. }
  assert (Hsel2 : select_columns df2 (index_names ix) = Ok by_cols).
  { rewrite <- Hsel. apply select_columns_ext. intros n Hn. unfold df2.
    rewrite !getitem_setitem_ne by (by intros <-).
    unfold getitem. simpl. by rewrite (select_columns_assoc _ _ _ _ Hsel Hn). }
  rewrite groupby_agg_keys by done. rewrite Hsel2. cbn [mbind result_bind].
  change (index df2) with (index df). fold keys. fold groups.
  set (value := λ (f : aggfunc) (v : list fval),
         map (λ g, apply_func f (take_mask (map (key_eqb g) keys) v)) groups).
  set (step := λ '(name, f), v ← getitem df2 name; Ok (name, value f v)).
  change (mapM _ (map_to_list agg_dict)) with (mapM step (map_to_list agg_dict)).
  assert (Hdict : ∀ n g, (n, g) ∈ map_to_list agg_dict
            → (n = num ∧ g = func_) ∨ (n = den ∧ g = denominator_func_)).
  { intros n g Hin. apply elem_of_map_to_list in Hin. unfold agg_dict in Hin.
    rewrite lookup_insert in Hin. case_decide; [right; split; congruence|].
    rewrite lookup_insert in Hin. case_decide; [left; split; congruence|].
    by rewrite lookup_empty in Hin. }
  destruct (mapM_agg_total step (map_to_list agg_dict)) as [cols Hcols].
  { intros [n g] Hin. unfold step.
    destruct (Hdict n g Hin) as [[-> ->]|[-> ->]].
    - rewrite Hgn. eauto.
    - rewrite Hgd. eauto. }
  rewrite Hcols. cbn [mbind result_bind].
  assert (Hcn : assoc num cols = Some (value func_ xs)).
  { apply (mapM_agg_assoc df2 value _ _ _ _ _ Hcols);
      [apply NoDup_fst_map_to_list| |done].
    apply elem_of_map_to_list. unfold agg_dict.
    by rewrite lookup_insert_ne, lookup_insert_eq. }
  assert (Hcd : assoc den cols = Some (value denominator_func_ ws)).
  { apply (mapM_agg_assoc df2 value _ _ _ _ _ Hcols);
      [apply NoDup_fst_map_to_list| |done].
    apply elem_of_map_to_list. unfold agg_dict. by rewrite lookup_insert_eq. }
  unfold collect. rewrite map_to_list_singleton. cbn [foldM].
  unfold collect_one. cbn [denominator]. fold num den.
  unfold getitem. cbn [columns]. rewrite Hcn, Hcd.
  cbn [mbind result_bind index]. unfold setitem. cbn [index columns assoc_set].
  unfold value. rewrite zip_with_fmap_l, zip_with_fmap_r, zip_with_diag.
  rewrite align_same by (by rewrite length_map). done.
Qed.

Lemma aggregate_grouped_ratio_witness :
  aggregate zero_weights ratio_spec None (Some (OneName "g"))
  = Ok (mkDF [[of_Z 7]] [("m", [PInf])]).
Proof.
  apply (aggregate_grouped_ratio zero_weights "m" "x" "w" (Some Sum) None
           (OneName "g") [("g", [of_Z 7; of_Z 7])]
           [of_Z 1; of_Z 3] [of_Z 0; of_Z 0]); try reflexivity.
  - discriminate.
  - simpl. rewrite list_elem_of_singleton. discriminate.
  - simpl. rewrite list_elem_of_singleton. discriminate.
Defined.

(** ** Reading the panel *)

Lemma foldM_restore_index self declared df df' :
  foldM (restore_one self) df declared = Ok df' →
  panel_index df' = panel_index df.
Proof.
  revert df. induction declared as [|c l IH]; intros df Hf; cbn [foldM] in Hf.
  - by injection Hf as <-.
  - destruct (restore_one self df c) as [df1|] eqn:Hone; [|done].
    cbn [mbind result_bind] in Hf. rewrite (IH _ Hf).
    unfold restore_one in Hone.
    destruct (get_dtypes self) as [m|]; [|done]. cbn [mbind result_bind] in Hone.
    destruct (m !! c.1.1) as [t|]; [|done].
    destruct (panel_get df c) as [v|]; [|done]. cbn [mbind result_bind] in Hone.
    destruct (astype t v) as [v'|]; [|done]. cbn [mbind result_bind] in Hone.
    injection Hone as <-. unfold panel_set. by destruct (list_find _ _) as [[? ?]|].
Qed.

Lemma restore_one_keys self df c df' :
  restore_one self df c = Ok df' →
  (panel_columns df').*1 = (panel_columns df).*1.
Proof.
  unfold restore_one.
  destruct (get_dtypes self) as [m|]; [|done]. cbn [mbind result_bind].
  destruct (m !! c.1.1) as [t|]; [|done].
  unfold panel_get, panel_set.
  destruct (list_find (λ kv, kv.1 = c) (panel_columns df)) as [[i kv]|] eqn:Hf;
    [|done].
  cbn [mbind result_bind].
  destruct (astype t kv.2) as [v'|]; [|done]. cbn [mbind result_bind].
  intros [= <-]. simpl.
  apply list_find_Some in Hf as (Hi & Hk & _).
  rewrite list_fmap_insert. apply list_insert_id.
  rewrite list_lookup_fmap, Hi. simpl. by rewrite Hk.
Qed.

Lemma foldM_restore_keys self declared df df' :
  foldM (restore_one self) df declared = Ok df' →
  (panel_columns df').*1 = (panel_columns df).*1.
Proof.
  revert df. induction declared as [|c l IH]; intros df Hf; cbn [foldM] in Hf.
  - by injection Hf as <-.
  - destruct (restore_one self df c) as [df1|] eqn:Hone; [|done].
    cbn [mbind result_bind] in Hf. rewrite (IH _ Hf).
    by eapply restore_one_keys.
Qed.

(** X14. The pivoted panel is named by position. [read] returns only when
    the list of triples that line 131 makes of the levels has as many
    triples as the frame has columns, and then the column at each position
    is named after the prefix of the aggregator and the space, the delta
    and the metric of the triple at that position, whatever the levels of
    the column itself; the rows are those of the frame that was pivoted. *)
Theorem read_pivoted_names (self : object) (df : Panel column_key)
    (columns_ : list column_key) (out : Panel string) (prefix : string) :
  get_prefix self = Ok prefix →
  read_pivoted self df columns_ = Ok out →
  (panel_columns out).*1
  = map (λ c : column_key, panel_column prefix c.1.2 c.2 c.1.1) columns_
  ∧ length columns_ = length (panel_columns df)
  ∧ panel_index out = panel_index df.
Proof.
  intros Hp. unfold read_pivoted.
  destruct (filter_declared self columns_) as [declared|]; [|done].
  cbn [mbind result_bind].
  destruct (foldM (restore_one self) df declared) as [df'|] eqn:Hf; [|done].
  cbn [mbind result_bind]. rewrite Hp. cbn [mbind result_bind].
  case_bool_decide as Hlen; [|done]. intros [= <-]. simpl. split; [|split].
  - apply fst_zip. by rewrite Hlen, length_fmap.
  - rewrite length_map in Hlen. rewrite Hlen.
    rewrite <- (length_fmap fst (panel_columns df')).
    rewrite (foldM_restore_keys _ _ _ _ Hf). apply length_fmap.
  - by eapply foldM_restore_index.
Qed.

Lemma read_pivoted_names_witness :
  (panel_columns
     (mkPanel [[of_Z 1]]
        [("tests_tract_1y_count", [of_Z 3]);
         ("tests_tract_3y_count", [of_Z 1])])).*1
  = ["tests_tract_1y_count"; "tests_tract_3y_count"]
  ∧ 2%nat = 2%nat
  ∧ [[of_Z 1]] = [[of_Z 1]].
Proof.
  refine (read_pivoted_names
            (<["dtypes" := VDtypes {[ "count" := Float64 ]}]>
               (SpacetimeAggregator_init ∅ [(2013, 1, 1)] "tests" "/data"))
            (mkPanel [[of_Z 1]]
               [("count", "tract", "3y", [of_Z 3]);
                ("count", "tract", "1y", [of_Z 1])])
            [("count", "tract", "1y"); ("count", "tract", "3y")]
            (mkPanel [[of_Z 1]]
               [("tests_tract_1y_count", [of_Z 3]);
                ("tests_tract_3y_count", [of_Z 1])])
            "tests" _ _);
    vm_compute; reflexivity.
Defined.

Lemma list_find_insert_other (l : list (column_key * list fval)) i c c' v0 v' :
  l !! i = Some (c', v0) → c ≠ c' →
  list_find (λ kv, kv.1 = c) (<[i := (c', v')]> l)
  = list_find (λ kv, kv.1 = c) l.
Proof.
  revert i. induction l as [|[k w] l IH]; intros [|i] Hi Hne; try done; simpl in *.
  - injection Hi as -> ->. simpl. by rewrite !decide_False by done.
  - simpl. destruct (decide (k = c)); [done|]. by rewrite (IH i).
Qed.

Lemma list_find_app_other (l : list (column_key * list fval)) c c' v' :
  c ≠ c' →
  (λ r : nat * (column_key * list fval), r.2.2)
    <$> list_find (λ kv, kv.1 = c) (l ++ [(c', v')])
  = (λ r : nat * (column_key * list fval), r.2.2)
    <$> list_find (λ kv, kv.1 = c) l.
Proof.
  intros Hne. induction l as [|[k w] l IH]; simpl.
  - by rewrite decide_False by done.
  - destruct (decide (k = c)); [done|].
    destruct (list_find _ (l ++ _)) as [[? ?]|], (list_find _ l) as [[? ?]|];
      simpl in *; congruence.
Qed.

Lemma panel_get_set_other df c c' v' v :
  c ≠ c' → panel_get df c = Ok v → panel_get (panel_set df c' v') c = Ok v.
Proof.
  intros Hne. unfold panel_get, panel_set.
  destruct (list_find (λ kv, kv.1 = c') (panel_columns df)) as [[i [k v0]]|] eqn:Hf.
  - apply list_find_Some in Hf as (Hi & Hk & _). simpl in Hk. subst k. simpl.
    by rewrite (list_find_insert_other _ _ _ _ v0).
  - simpl. pose proof (list_find_app_other (panel_columns df) c c' v' Hne) as H.
    destruct (list_find _ (panel_columns df ++ _)) as [[? ?]|],
      (list_find (λ kv, kv.1 = c) (panel_columns df)) as [[? ?]|];
      simpl in *; congruence.
Qed.

Lemma astype_Int64_missing v :
  NaN ∈ v → astype Int64 v = Raise (ValueError "Cannot convert NA to integer").
Proof.
  unfold astype. induction v as [|x v IH]; intros Hin; simpl.
  - by apply elem_of_nil in Hin.
  - destruct x as [q| | |]; try done. cbn [mbind result_bind].
    apply elem_of_cons in Hin as [?|Hin]; [done|]. by rewrite IH.
Qed.

Lemma filter_declared_ok self m columns_ :
  get_dtypes self = Ok m →
  filter_declared self columns_
  = Ok (List.filter (λ c : column_key, bool_decide (is_Some (m !! c.1.1))) columns_).
Proof.
  intros Hm. induction columns_ as [|c l IH]; simpl; [done|].
  rewrite Hm, IH. cbn [mbind result_bind]. by destruct (bool_decide _).
Qed.

Lemma foldM_restore_missing self m declared df c v :
  get_dtypes self = Ok m → m !! c.1.1 = Some Int64 →
  c ∈ declared → panel_get df c = Ok v → NaN ∈ v →
  ∃ e, foldM (restore_one self) df declared = Raise e.
Proof.
  intros Hm Hc Hin Hv Hnan. revert df Hv.
  induction declared as [|c0 l IH]; intros df Hv; cbn [foldM].
  - by apply elem_of_nil in Hin.
  - destruct (restore_one self df c0) as [df1|e] eqn:Hone; [|eauto].
    cbn [mbind result_bind].
    destruct (decide (c0 = c)) as [->|Hne].
    + unfold restore_one in Hone. rewrite Hm in Hone.
      cbn [mbind result_bind] in Hone. rewrite Hc, Hv in Hone.
      cbn [mbind result_bind] in Hone.
      by rewrite astype_Int64_missing in Hone.
    + apply elem_of_cons in Hin as [?|Hin]; [congruence|].
      apply IH; [done|].
      unfold restore_one in Hone. rewrite Hm in Hone.
      cbn [mbind result_bind] in Hone.
      destruct (m !! c0.1.1) as [t|]; [|done].
      destruct (panel_get df c0) as [v0|]; [|done].
      cbn [mbind result_bind] in Hone.
      destruct (astype t v0) as [v0'|]; [|done].
      cbn [mbind result_bind] in Hone. injection Hone as <-.
      by apply panel_get_set_other.
Qed.

(** X15. Setting an integer dtype back fails on a missing value: when the
    aggregator declares the dtype [Int64] for a metric and a column of
    that metric in the pivoted frame holds a missing value, [read] raises
    and returns no panel. *)
Theorem read_pivoted_missing_integer (self : object)
    (m : gmap string dtype) (df : Panel column_key)
    (columns_ : list column_key) (c : column_key) (v : list fval) :
  get_dtypes self = Ok m → m !! c.1.1 = Some Int64 →
  c ∈ columns_ → panel_get df c = Ok v → NaN ∈ v →
  ∃ e, read_pivoted self df columns_ = Raise e.
Proof.
  intros Hm Hc Hin Hv Hnan. unfold read_pivoted.
  rewrite (filter_declared_ok _ _ _ Hm). cbn [mbind result_bind].
  destruct (foldM_restore_missing self m
              (List.filter (λ c : column_key, bool_decide (is_Some (m !! c.1.1)))
                 columns_) df c v) as [e ->]; try done.
  - apply filter_elem_of. split; [done|].
    apply bool_decide_eq_true. by rewrite Hc.
  - eauto.
Qed.

Lemma read_pivoted_missing_integer_witness :
  ∃ e, read_pivoted
         (<["dtypes" := VDtypes {[ "count" := Int64 ]}]>
            (SpacetimeAggregator_init ∅ [(2013, 1, 1)] "tests" "/data"))
         (mkPanel [[of_Z 1]; [of_Z 2]]
                  [("count", "tract", "3y", [of_Z 3; NaN])])
         [("count", "tract", "3y")]
       = Raise e.
Proof.
  apply (read_pivoted_missing_integer _ {[ "count" := Int64 ]} _ _
           ("count", "tract", "3y") [of_Z 3; NaN]).
  - vm_compute. reflexivity.
  - reflexivity.
  - rewrite list_elem_of_singleton. reflexivity.
  - reflexivity.
  - rewrite !elem_of_cons. auto.
Defined.
